(** * Differentially private StandardScaler: incremental mean and variance

    A shallow embedding of [diffprivlib/models/standard_scaler.py]:
    the module-level combiner [_incremental_mean_and_var] and the method
    [StandardScaler.partial_fit].

    - NumPy [float64] values are IEEE 754 binary64 numbers, taken from the
      Standard Library's executable specification [SpecFloat] (one NaN,
      signed zeros and infinities, round to nearest even).
    - NumPy [int64] values are integers in [Z] with the wrap-around written
      out.
    - Exceptions and the mutation of [self] are threaded through a small
      state-and-exception monad; the state also keeps the log of the calls
      made to the two privatized statistic sources [nanmean] and [nanvar],
      which live outside this file of the repository and are parameters. *)

From Stdlib Require Import ZArith List Bool Lia.
From Stdlib Require Import SpecFloat.
Import ListNotations.
Open Scope Z_scope.

(** ** binary64 arithmetic *)

Definition float : Type := spec_float.

Module F64.
Definition prec : Z := 53.
Definition emax : Z := 1024.

Definition add : float -> float -> float := SFadd prec emax.
Definition sub : float -> float -> float := SFsub prec emax.
Definition mul : float -> float -> float := SFmul prec emax.
Definition div : float -> float -> float := SFdiv prec emax.
Definition sqrt : float -> float := SFsqrt prec emax.
Definition eqb : float -> float -> bool := SFeqb.

(** Conversion of an integer to the nearest binary64 number, as NumPy
    does when an [int64] operand meets a [float64] one. *)
Definition of_int (z : Z) : float := binary_normalize prec emax z 0 false.

Definition zero : float := S754_zero false.
Definition one : float := of_int 1.
Definition nan : float := S754_nan.
Definition inf : float := S754_infinity false.

Definition isnan (x : float) : bool :=
  match x with S754_nan => true | _ => false end.

(** [x ** 2]: NumPy evaluates a power with the scalar exponent 2 as a
    square, [x * x]. *)
Definition square (x : float) : float := mul x x.
End F64.

(** ** int64 arithmetic *)

Module I64.
Definition modulus : Z := 2 ^ 64.
Definition half : Z := 2 ^ 63.

Definition wrap (z : Z) : Z := (z + half) mod modulus - half.
Definition add (a b : Z) : Z := wrap (a + b).
Definition sub (a b : Z) : Z := wrap (a - b).

Definition in_range (z : Z) : Prop := - half <= z < half.
End I64.

(** ** Results and exceptions *)

Inductive exn : Type :=
| ValueError
| TypeError
| IndexError
| AttributeError.

Inductive res (A : Type) : Type :=
| Ok (a : A)
| Raise (e : exn).
Arguments Ok {A} a.
Arguments Raise {A} e.

(** ** Arrays *)

(** A value that is either a Python/NumPy float scalar or a one
    dimensional [float64] array. *)
Inductive farr : Type :=
| FScalar (x : float)
| FArray (xs : list float).

(** [n_samples_seen_] is either an integer scalar or a one dimensional
    [int64] array. *)
Inductive iarr : Type :=
| IScalar (n : Z)
| IArray (ns : list Z).

(** A two dimensional [float64] array of shape
    [(length rows, n_features)]. *)
Record array2 : Type := mkArray2 {
  n_features : nat;
  rows : list (list float)
}.

Definition shape0 (X : array2) : nat := length (rows X).
Definition shape1 (X : array2) : nat := n_features X.

Definition column (X : array2) (j : nat) : list float :=
  map (fun r => nth j r F64.nan) (rows X).

Definition tabulate {A : Type} (d : nat) (f : nat -> A) : list A :=
  map f (seq 0 d).

Fixpoint zip_with {A B C : Type} (f : A -> B -> C)
         (xs : list A) (ys : list B) : list C :=
  match xs, ys with
  | x :: xs', y :: ys' => f x y :: zip_with f xs' ys'
  | _, _ => []
  end.

(** NumPy broadcasting of two one dimensional arrays: equal lengths
    combine elementwise, a length-one array is stretched, anything else
    raises [ValueError]. *)
Definition broadcast2 {A B C : Type} (f : A -> B -> C)
           (xs : list A) (ys : list B) : res (list C) :=
  if Nat.eqb (length xs) (length ys) then Ok (zip_with f xs ys)
  else match xs, ys with
       | [x], _ => Ok (map (f x) ys)
       | _, [y] => Ok (map (fun x => f x y) xs)
       | _, _ => Raise ValueError
       end.

(** A binary ufunc on float operands. *)
Definition fbinop (f : float -> float -> float) (a b : farr) : res farr :=
  match a, b with
  | FScalar x, FScalar y => Ok (FScalar (f x y))
  | FScalar x, FArray ys => Ok (FArray (map (f x) ys))
  | FArray xs, FScalar y => Ok (FArray (map (fun x => f x y) xs))
  | FArray xs, FArray ys =>
      match broadcast2 f xs ys with
      | Ok zs => Ok (FArray zs)
      | Raise e => Raise e
      end
  end.

Definition fmap (f : float -> float) (a : farr) : farr :=
  match a with
  | FScalar x => FScalar (f x)
  | FArray xs => FArray (map f xs)
  end.

(** An [int64] array promoted to [float64]. *)
Definition to_float (ns : list Z) : farr := FArray (map F64.of_int ns).

(** [np.sum(~np.isnan(X), axis=0)] *)
Definition count_true (p : float -> bool) (xs : list float) : Z :=
  Z.of_nat (length (filter p xs)).

Definition count_not_nan (X : array2) : list Z :=
  tabulate (shape1 X) (fun j => count_true (fun x => negb (F64.isnan x)) (column X j)).

(** [np.isnan(X).sum(axis=0)] *)
Definition count_nan (X : array2) : list Z :=
  tabulate (shape1 X) (fun j => count_true F64.isnan (column X j)).

(** [a[mask] = b[mask]] for a boolean mask: the mask must have the length
    of both arrays. *)
Fixpoint mask_assign (a : list float) (mask : list bool) (b : list float)
  : list float :=
  match a, mask, b with
  | x :: a', m :: mask', y :: b' =>
      (if m then y else x) :: mask_assign a' mask' b'
  | _, _, _ => []
  end.

Definition setitem_mask (a : farr) (mask : list bool) (b : farr) : res farr :=
  match a, b with
  | FArray xs, FArray ys =>
      if Nat.eqb (length mask) (length xs) && Nat.eqb (length mask) (length ys)
      then Ok (FArray (mask_assign xs mask ys))
      else Raise IndexError
  | _, _ => Raise TypeError
  end.

(** [np.ptp] of an [int64] array: maximum minus minimum; an empty array
    has no maximum and raises [ValueError]. *)
Definition list_max (n : Z) (ns : list Z) : Z := fold_left Z.max ns n.
Definition list_min (n : Z) (ns : list Z) : Z := fold_left Z.min ns n.

Definition ptp (ns : list Z) : res Z :=
  match ns with
  | [] => Raise ValueError
  | n :: ns' => Ok (I64.sub (list_max n ns') (list_min n ns'))
  end.

(** One entry of a scale: a zero, of either sign, becomes 1. *)
Definition handle_zero (x : float) : float :=
  if F64.eqb x F64.zero then F64.one else x.

(** Modelled from the spec: [_handle_zeros_in_scale] is imported from
    scikit-learn and is not defined in this repository; the spec says that
    the scale has its zero values replaced by 1. *)
Definition _handle_zeros_in_scale (scale : farr) : farr := fmap handle_zero scale.

(** ** Noise-free statistic sources

    Exact, NaN-aware column statistics.  They stand in for the privatized
    sources when the development is run on concrete batches. *)

Definition not_nan (x : float) : bool := negb (F64.isnan x).

Definition fsum (xs : list float) : float := fold_left F64.add xs F64.zero.

Definition flen (xs : list float) : float := F64.of_int (Z.of_nat (length xs)).

Definition column_mean (xs : list float) : float :=
  let obs := filter not_nan xs in
  F64.div (fsum obs) (flen obs).

Definition column_var (xs : list float) : float :=
  let obs := filter not_nan xs in
  let m := column_mean xs in
  F64.div (fsum (map (fun x => F64.square (F64.sub x m)) obs)) (flen obs).

Definition exact_nanmean (k : nat) (X : array2) (eps : float) (rng : unit)
  : list float :=
  tabulate (shape1 X) (fun j => column_mean (column X j)).

Definition exact_nanvar (k : nat) (X : array2) (eps : float) (rng : unit)
  : list float :=
  tabulate (shape1 X) (fun j => column_var (column X j)).

(** A validator that accepts a rectangular batch with at least one sample
    and one feature and no infinite entry, and returns it unchanged. *)
Definition finite_or_nan (x : float) : bool :=
  match x with S754_infinity _ => false | _ => true end.

Definition valid_batch (X : array2) : bool :=
  negb (Nat.eqb (shape0 X) 0) && negb (Nat.eqb (shape1 X) 0) &&
  forallb (fun r => Nat.eqb (length r) (shape1 X) && forallb finite_or_nan r) (rows X).

Definition validate (copy : bool) (X : array2) : res array2 :=
  if valid_batch X then Ok X else Raise ValueError.

(** ** The combination formulas, feature by feature

    These follow the wording of the specification of the combiner
    (section 4.2); the theorems below compare them with what
    [_incremental_mean_and_var] computes. *)

Definition count_updated (countOld countNew : Z) : Z := I64.add countOld countNew.

Definition mean_updated (meanOld : float) (countOld : Z)
           (meanNew : float) (countNew : Z) : float :=
  let sumOld := F64.mul meanOld (F64.of_int countOld) in
  let sumNew := F64.mul meanNew (F64.of_int countNew) in
  F64.div (F64.add sumOld sumNew) (F64.of_int (count_updated countOld countNew)).

Definition unnorm_var_chan (meanOld varOld : float) (countOld : Z)
           (meanNew varNew : float) (countNew : Z) : float :=
  let sumOld := F64.mul meanOld (F64.of_int countOld) in
  let sumNew := F64.mul meanNew (F64.of_int countNew) in
  let unnormVarOld := F64.mul varOld (F64.of_int countOld) in
  let unnormVarNew := F64.mul varNew (F64.of_int countNew) in
  let ratio := F64.div (F64.of_int countOld) (F64.of_int countNew) in
  let countUpdated := F64.of_int (count_updated countOld countNew) in
  F64.add (F64.add unnormVarOld unnormVarNew)
          (F64.mul (F64.div ratio countUpdated)
                   (F64.square (F64.sub (F64.div sumOld ratio) sumNew))).

Definition unnorm_var_updated (meanOld varOld : float) (countOld : Z)
           (meanNew varNew : float) (countNew : Z) : float :=
  if Z.eqb countOld 0 then F64.mul varNew (F64.of_int countNew)
  else unnorm_var_chan meanOld varOld countOld meanNew varNew countNew.

Definition var_updated (meanOld varOld : float) (countOld : Z)
           (meanNew varNew : float) (countNew : Z) : float :=
  F64.div (unnorm_var_updated meanOld varOld countOld meanNew varNew countNew)
          (F64.of_int (count_updated countOld countNew)).

(** The number of observed (non-NaN) entries of feature [j] in a batch. *)
Definition observed (X : array2) (j : nat) : Z :=
  count_true (fun x => negb (F64.isnan x)) (column X j).

(** Element [j] of a float operand once broadcast, and the shapes that
    broadcast against an array of length [d] without stretching it. *)
Definition fget (a : farr) (j : nat) : float :=
  match a with
  | FScalar x => x
  | FArray xs => nth j xs F64.nan
  end.

Definition fshape (d : nat) (a : farr) : Prop :=
  match a with
  | FScalar _ => True
  | FArray xs => length xs = d
  end.

Definition all_equal (ns : list Z) : bool :=
  match ns with
  | [] => true
  | n :: ns' => forallb (Z.eqb n) ns'
  end.

(** The scale derived from a variance, entry by entry. *)
Definition scale_of (v : float) : float :=
  let r := F64.sqrt v in if F64.eqb r F64.zero then F64.one else r.

(** ** Example batches *)

Definition fl (z : Z) : float := F64.of_int z.

(** The two batches of the example of the specification. *)
Definition batch_first : array2 := mkArray2 2 [[fl 1; fl 2]; [fl 3; fl 4]].
Definition batch_second : array2 := mkArray2 2 [[fl 5; fl 6]].

(** A batch whose first feature is missing in every sample, and a fully
    observed one. *)
Definition batch_missing : array2 :=
  mkArray2 2 [[F64.nan; fl 1]; [F64.nan; fl 3]].
Definition batch_observed : array2 :=
  mkArray2 2 [[fl 5; fl 5]; [fl 7; fl 7]].

(** A one-feature batch whose only sample misses the feature. *)
Definition batch_unseen : array2 := mkArray2 1 [[F64.nan]].

(** A batch whose first feature is constant. *)
Definition batch_constant : array2 := mkArray2 2 [[fl 4; fl 1]; [fl 4; fl 2]].

(** A batch with three features, and one with a single feature. *)
Definition batch_wide : array2 := mkArray2 3 [[fl 1; fl 2; fl 3]].
Definition batch_single : array2 := mkArray2 1 [[fl 2]; [fl 4]].

Section Scaler.

(** The type of the clipping range handed to the statistic sources. *)
Variable range_t : Type.

(** The privatized statistic sources [diffprivlib.tools.nanmean] and
    [diffprivlib.tools.nanvar], called with [axis=0].  They draw random
    noise, so the answer may differ from call to call: the first argument
    is the number of calls made before this one. *)
Variable nanmean : nat -> array2 -> float -> range_t -> list float.
Variable nanvar : nat -> array2 -> float -> range_t -> list float.

(** [sklearn.utils.check_array], called with [accept_sparse=False],
    [dtype=FLOAT_DTYPES] and [force_all_finite='allow-nan']; the first
    argument is [copy]. *)
Variable check_array : bool -> array2 -> res array2.

Inductive call : Type :=
| CallMean (X : array2) (epsilon : float) (rng : range_t)
| CallVar (X : array2) (epsilon : float) (rng : range_t).

(** The estimator object.  An attribute that has not been set yet is
    [None] at the outer level ([hasattr] is false); the Python value
    [None] is the inner [None]. *)
Record scaler : Type := mkScaler {
  epsilon : float;
  range : range_t;
  copy : bool;
  with_mean : bool;
  with_std : option bool;
  n_samples_seen_ : option iarr;
  mean_ : option (option farr);
  var_ : option (option farr);
  scale_ : option (option farr)
}.

Definition set_n_samples_seen_ (v : iarr) (s : scaler) : scaler :=
  mkScaler (epsilon s) (range s) (copy s) (with_mean s) (with_std s)
           (Some v) (mean_ s) (var_ s) (scale_ s).
Definition set_mean_ (v : option farr) (s : scaler) : scaler :=
  mkScaler (epsilon s) (range s) (copy s) (with_mean s) (with_std s)
           (n_samples_seen_ s) (Some v) (var_ s) (scale_ s).
Definition set_var_ (v : option farr) (s : scaler) : scaler :=
  mkScaler (epsilon s) (range s) (copy s) (with_mean s) (with_std s)
           (n_samples_seen_ s) (mean_ s) (Some v) (scale_ s).
Definition set_scale_ (v : option farr) (s : scaler) : scaler :=
  mkScaler (epsilon s) (range s) (copy s) (with_mean s) (with_std s)
           (n_samples_seen_ s) (mean_ s) (var_ s) (Some v).

(** Truth value of [self.with_std]: [None] and [False] are false. *)
Definition truthy (b : option bool) : bool :=
  match b with Some true => true | _ => false end.

(** ** The monad: the estimator, the call log, and exceptions *)

Record world : Type := mkWorld {
  self : scaler;
  calls : list call
}.

Definition M (A : Type) : Type := world -> res A * world.

Definition ret {A : Type} (a : A) : M A := fun w => (Ok a, w).

Definition bind {A B : Type} (c : M A) (k : A -> M B) : M B :=
  fun w => match c w with
           | (Ok a, w') => k a w'
           | (Raise e, w') => (Raise e, w')
           end.

Definition raise {A : Type} (e : exn) : M A := fun w => (Raise e, w).

Definition lift {A : Type} (r : res A) : M A := fun w => (r, w).

Definition get_self : M scaler := fun w => (Ok (self w), w).

Definition update (f : scaler -> scaler) : M unit :=
  fun w => (Ok tt, mkWorld (f (self w)) (calls w)).

(** Reading an attribute that was never set raises [AttributeError]. *)
Definition getattr {A : Type} (field : scaler -> option A) : M A :=
  fun w => match field (self w) with
           | Some v => (Ok v, w)
           | None => (Raise AttributeError, w)
           end.

Definition call_nanmean (X : array2) (eps : float) (rng : range_t)
  : M (list float) :=
  fun w => (Ok (nanmean (length (calls w)) X eps rng),
            mkWorld (self w) (calls w ++ [CallMean X eps rng])).

Definition call_nanvar (X : array2) (eps : float) (rng : range_t)
  : M (list float) :=
  fun w => (Ok (nanvar (length (calls w)) X eps rng),
            mkWorld (self w) (calls w ++ [CallVar X eps rng])).

Notation "x <- c ;; k" := (bind c (fun x => k))
  (at level 61, c at next level, right associativity).
Notation "c ;; k" := (bind c (fun _ => k))
  (at level 61, right associativity).

(** ** [_incremental_mean_and_var] *)

Definition _incremental_mean_and_var
           (X : array2) (epsilon : float) (range : range_t)
           (last_mean : option farr) (last_variance : option farr)
           (last_sample_count : list Z)
  : M (farr * option farr * list Z) :=
  last_mean <- lift (match last_mean with
                     | Some m => Ok m
                     | None => Raise TypeError
                     end) ;;
  last_sum <- lift (fbinop F64.mul last_mean (to_float last_sample_count)) ;;
  new_mean <- call_nanmean X epsilon range ;;
  let new_sample_count := count_not_nan X in
  new_sum <- lift (fbinop F64.mul (FArray new_mean) (to_float new_sample_count)) ;;
  updated_sample_count <- lift (broadcast2 I64.add last_sample_count new_sample_count) ;;
  total <- lift (fbinop F64.add last_sum new_sum) ;;
  updated_mean <- lift (fbinop F64.div total (to_float updated_sample_count)) ;;
  match last_variance with
  | None => ret (updated_mean, None, updated_sample_count)
  | Some last_variance =>
      new_var <- call_nanvar X epsilon range ;;
      new_unnormalized_variance <-
        lift (fbinop F64.mul (FArray new_var) (to_float new_sample_count)) ;;
      last_unnormalized_variance <-
        lift (fbinop F64.mul last_variance (to_float last_sample_count)) ;;
      last_over_new_count <-
        lift (fbinop F64.div (to_float last_sample_count) (to_float new_sample_count)) ;;
      t1 <- lift (fbinop F64.add last_unnormalized_variance new_unnormalized_variance) ;;
      t2 <- lift (fbinop F64.div last_over_new_count (to_float updated_sample_count)) ;;
      t3 <- lift (fbinop F64.div last_sum last_over_new_count) ;;
      t4 <- lift (fbinop F64.sub t3 new_sum) ;;
      t5 <- lift (fbinop F64.mul t2 (fmap F64.square t4)) ;;
      updated_unnormalized_variance <- lift (fbinop F64.add t1 t5) ;;
      let zeros := map (fun n => Z.eqb n 0) last_sample_count in
      updated_unnormalized_variance <-
        lift (setitem_mask updated_unnormalized_variance zeros new_unnormalized_variance) ;;
      updated_variance <-
        lift (fbinop F64.div updated_unnormalized_variance (to_float updated_sample_count)) ;;
      ret (updated_mean, Some updated_variance, updated_sample_count)
  end.

(** ** [StandardScaler.partial_fit] *)

(** [self.n_samples_seen_ += v]: the in-place addition keeps the shape of
    the left operand, so only the right operand may be stretched. *)
Definition iadd_inplace (ns vs : list Z) : res (list Z) :=
  if Nat.eqb (length ns) (length vs) then Ok (zip_with I64.add ns vs)
  else match vs with
       | [v] => Ok (map (fun n => I64.add n v) ns)
       | _ => Raise ValueError
       end.

(** [self.n_samples_seen_] read where the code needs an array. Lines
    166-170 leave an array there, so the scalar case is never met. *)
Definition as_array (n : iarr) : res (list Z) :=
  match n with
  | IArray ns => Ok ns
  | IScalar _ => Raise TypeError
  end.

(** [np.sqrt(self.var_)]: [None] has no square root. *)
Definition np_sqrt (v : option farr) : res farr :=
  match v with
  | Some a => Ok (fmap F64.sqrt a)
  | None => Raise TypeError
  end.

Definition partial_fit (X : array2) : M unit :=
  s <- get_self ;;
  let epsilon_0 :=
    match with_std s with
    | None => epsilon s
    | Some _ => F64.div (epsilon s) (F64.of_int 2)
    end in
  X <- lift (check_array (copy s) X) ;;
  (* lines 166-167 *)
  s <- get_self ;;
  match n_samples_seen_ s with
  | Some (IScalar n) =>
      update (set_n_samples_seen_ (IArray (repeat n (shape1 X))))
  | _ => ret tt
  end ;;
  (* lines 169-170 *)
  s <- get_self ;;
  match n_samples_seen_ s with
  | None => update (set_n_samples_seen_ (IArray (repeat 0 (shape1 X))))
  | Some _ => ret tt
  end ;;
  (* first pass, lines 173-178 *)
  s <- get_self ;;
  match scale_ s with
  | None =>
      update (set_mean_ (Some (FScalar F64.zero))) ;;
      if truthy (with_std s)
      then update (set_var_ (Some (FScalar F64.zero)))
      else update (set_var_ None)
  | Some _ => ret tt
  end ;;
  (* lines 180-187 *)
  s <- get_self ;;
  (if negb (with_mean s) && negb (truthy (with_std s)) then
     update (set_mean_ None) ;;
     update (set_var_ None) ;;
     n <- getattr n_samples_seen_ ;;
     ns <- lift (as_array n) ;;
     let seen := map (fun k => I64.sub (Z.of_nat (shape0 X)) k) (count_nan X) in
     ns' <- lift (iadd_inplace ns seen) ;;
     update (set_n_samples_seen_ (IArray ns'))
   else
     m <- getattr mean_ ;;
     v <- getattr var_ ;;
     n <- getattr n_samples_seen_ ;;
     ns <- lift (as_array n) ;;
     r <- _incremental_mean_and_var X epsilon_0 (range s) m v ns ;;
     let '(updated_mean, updated_variance, updated_sample_count) := r in
     update (set_mean_ (Some updated_mean)) ;;
     update (set_var_ updated_variance) ;;
     update (set_n_samples_seen_ (IArray updated_sample_count))) ;;
  (* lines 192-193 *)
  n <- getattr n_samples_seen_ ;;
  ns <- lift (as_array n) ;;
  spread <- lift (ptp ns) ;;
  (if Z.eqb spread 0
   then match ns with
        | n0 :: _ => update (set_n_samples_seen_ (IScalar n0))
        | [] => raise IndexError
        end
   else ret tt) ;;
  (* lines 195-198 *)
  s <- get_self ;;
  if truthy (with_std s) then
    v <- getattr var_ ;;
    root <- lift (np_sqrt v) ;;
    update (set_scale_ (Some (_handle_zeros_in_scale root)))
  else
    update (set_scale_ None).

(** Running a computation on a given estimator with an empty call log. *)
Definition run {A : Type} (c : M A) (s : scaler) : res A * world :=
  c (mkWorld s []).

(** The estimator right after construction: no fitted attribute is set. *)
Definition new_scaler (epsilon : float) (range : range_t) (copy with_mean : bool)
           (with_std : option bool) : scaler :=
  mkScaler epsilon range copy with_mean with_std None None None None.

(** ** Views of the estimator used to state the properties *)

(** The budget handed to the statistic sources (line 156). *)
Definition epsilon_0 (s : scaler) : float :=
  match with_std s with
  | None => epsilon s
  | Some _ => F64.div (epsilon s) (F64.of_int 2)
  end.

(** The per-feature counts that enter the merge: lines 166-170 turn a
    scalar into a vector of [d] copies and a missing attribute into zeros. *)
Definition prior_counts (s : scaler) (d : nat) : list Z :=
  match n_samples_seen_ s with
  | None => repeat 0 d
  | Some (IScalar n) => repeat n d
  | Some (IArray ns) => ns
  end.

(** The mean and the variance that enter the merge: lines 173-178 reset
    them on the first pass. *)
Definition prior_mean (s : scaler) : option (option farr) :=
  match scale_ s with
  | None => Some (Some (FScalar F64.zero))
  | Some _ => mean_ s
  end.

Definition prior_var (s : scaler) : option (option farr) :=
  match scale_ s with
  | None => Some (if truthy (with_std s) then Some (FScalar F64.zero) else None)
  | Some _ => var_ s
  end.

(** The compact representation of the counts (lines 192-193). *)
Definition collapse (ns : list Z) : iarr :=
  if all_equal ns then IScalar (hd 0 ns) else IArray ns.

(** Whether the estimator tracks a statistic at all (line 180). *)
Definition tracking (s : scaler) : bool :=
  with_mean s || truthy (with_std s).

(** The states an estimator can be in after any number of [partial_fit]
    calls, whether they return or raise. *)
Inductive reachable (s0 : scaler) : scaler -> Prop :=
| reach_start : reachable s0 s0
| reach_step (s : scaler) (X : array2) (log : list call) (r : res unit) (w' : world) :
    reachable s0 s ->
    partial_fit X (mkWorld s log) = (r, w') ->
    reachable s0 (self w').

(** The calls a merge makes to the statistic sources: the mean always,
    the variance when a variance is tracked. *)
Definition calls_of_merge (X : array2) (eps : float) (rng : range_t)
           (lv : option farr) : list call :=
  CallMean X eps rng ::
  match lv with None => [] | Some _ => [CallVar X eps rng] end.

(** The estimator after a call that returns: the configuration is kept and
    the four fitted attributes are set. *)
Definition fitted (s : scaler) (n : iarr) (m v sc : option farr) : scaler :=
  mkScaler (epsilon s) (range s) (copy s) (with_mean s) (with_std s)
           (Some n) (Some m) (Some v) (Some sc).



(** The configuration is the same in two states of the estimator. *)
Definition same_config (s s' : scaler) : Prop :=
  epsilon s' = epsilon s /\ range s' = range s /\ copy s' = copy s /\
  with_mean s' = with_mean s /\ with_std s' = with_std s.

(** The estimator can merge a batch of [d] features: its counts, mean and
    variance have that many entries (or are still scalars), and a variance
    is there when [with_std] asks for one. *)
Definition ready (d : nat) (s : scaler) : Prop :=
  length (prior_counts s d) = d /\
  (exists m, prior_mean s = Some (Some m) /\ fshape d m) /\
  match prior_var s with
  | Some (Some v) => fshape d v
  | Some None => truthy (with_std s) = false
  | None => False
  end.

(** The lazily created attributes agree with the configuration: once
    [scale_] is set on an estimator that tracks a statistic, a mean is
    stored, and a variance is stored exactly when [with_std] asks for it. *)
Definition consistent (s : scaler) : Prop :=
  scale_ s <> None -> tracking s = true ->
  (exists m, mean_ s = Some (Some m)) /\
  (if truthy (with_std s)
   then exists v, var_ s = Some (Some v)
   else var_ s = Some None).

(** The estimator can take a batch of [d] features: on the path that skips
    the statistics only the counts matter. *)
Definition accepts (d : nat) (s : scaler) : Prop :=
  if tracking s then ready d s else length (prior_counts s d) = d.

(** The entries of a float operand, and the values whose square root is
    not a number. *)
Definition entries (a : farr) : list float :=
  match a with
  | FScalar x => [x]
  | FArray xs => xs
  end.

Definition negative (x : float) : bool :=
  match x with
  | S754_finite true _ _ | S754_infinity true => true
  | _ => false
  end.

(** A batch without missing entries: every row has an entry for every
    feature and none of them is NaN. *)
Definition complete (X : array2) : Prop :=
  Forall (fun r => length r = shape1 X /\
                   Forall (fun x => F64.isnan x = false) r) (rows X).

(** * Properties *)

(** ** Lists, tabulation and broadcasting *)

Lemma tabulate_length {A : Type} (d : nat) (f : nat -> A) :
  length (tabulate d f) = d.
Proof. unfold tabulate. now rewrite length_map, length_seq. Qed.

Lemma tabulate_nth {A : Type} (d : nat) (f : nat -> A) (j : nat) (a : A) :
  (j < d)%nat -> nth j (tabulate d f) a = f j.
Proof.
  intros Hj. unfold tabulate.
  rewrite (nth_indep _ a (f 0%nat)) by now rewrite length_map, length_seq.
  rewrite map_nth, seq_nth; auto.
Qed.

Lemma tabulate_ext {A : Type} (d : nat) (f g : nat -> A) :
  (forall j, (j < d)%nat -> f j = g j) -> tabulate d f = tabulate d g.
Proof.
  intros H. unfold tabulate. apply map_ext_in.
  intros j Hj. apply in_seq in Hj. apply H. lia.
Qed.

Lemma tabulate_of_list {A : Type} (xs : list A) (a : A) :
  xs = tabulate (length xs) (fun j => nth j xs a).
Proof.
  apply (nth_ext _ _ a a).
  - now rewrite tabulate_length.
  - intros j Hj. now rewrite tabulate_nth.
Qed.

Lemma tabulate_map {A B : Type} (g : A -> B) (d : nat) (f : nat -> A) :
  map g (tabulate d f) = tabulate d (fun j => g (f j)).
Proof. unfold tabulate. now rewrite map_map. Qed.

Lemma zip_with_length {A B C : Type} (f : A -> B -> C) xs ys :
  length xs = length ys -> length (zip_with f xs ys) = length xs.
Proof.
  revert ys. induction xs as [|x xs IH]; intros [|y ys]; simpl; intros H;
    try discriminate; auto.
Qed.

Lemma zip_with_nth {A B C : Type} (f : A -> B -> C) xs ys j a b c :
  length xs = length ys -> (j < length xs)%nat ->
  nth j (zip_with f xs ys) c = f (nth j xs a) (nth j ys b).
Proof.
  revert ys j. induction xs as [|x xs IH]; intros [|y ys] j; simpl; intros H Hj;
    try discriminate; try lia.
  destruct j; auto. apply IH; lia.
Qed.

Lemma zip_with_tabulate {A B C : Type} (f : A -> B -> C) d g h :
  zip_with f (tabulate d g) (tabulate d h) = tabulate d (fun j => f (g j) (h j)).
Proof.
  apply (nth_ext _ _ (f (g 0%nat) (h 0%nat)) (f (g 0%nat) (h 0%nat))).
  - rewrite zip_with_length; now rewrite !tabulate_length.
  - intros j Hj. rewrite zip_with_length in Hj by now rewrite !tabulate_length.
    rewrite tabulate_length in Hj.
    rewrite (zip_with_nth f _ _ j (g 0%nat) (h 0%nat)), !tabulate_nth;
      rewrite ?tabulate_length; auto.
Qed.

Lemma broadcast2_tabulate {A B C : Type} (f : A -> B -> C) d g h :
  broadcast2 f (tabulate d g) (tabulate d h)
  = Ok (tabulate d (fun j => f (g j) (h j))).
Proof.
  unfold broadcast2. rewrite !tabulate_length, Nat.eqb_refl.
  now rewrite zip_with_tabulate.
Qed.

Lemma fshape_tabulate (d : nat) (a : farr) :
  fshape d a ->
  match a with
  | FScalar _ => True
  | FArray xs => xs = tabulate d (fget a)
  end.
Proof.
  destruct a as [x|xs]; simpl; auto.
  intros <-. apply tabulate_of_list.
Qed.

Lemma fbinop_tabulate (f : float -> float -> float) (d : nat) (a : farr) h :
  fshape d a ->
  fbinop f a (FArray (tabulate d h))
  = Ok (FArray (tabulate d (fun j => f (fget a j) (h j)))).
Proof.
  intros Ha. destruct a as [x|xs]; simpl.
  - now rewrite tabulate_map.
  - simpl in Ha. rewrite (tabulate_of_list xs F64.nan) at 1.
    rewrite Ha, broadcast2_tabulate. reflexivity.
Qed.

Lemma fbinop_tabulate2 (f : float -> float -> float) (d : nat) g h :
  fbinop f (FArray (tabulate d g)) (FArray (tabulate d h))
  = Ok (FArray (tabulate d (fun j => f (g j) (h j)))).
Proof. simpl. now rewrite broadcast2_tabulate. Qed.

Lemma to_float_tabulate (d : nat) (g : nat -> Z) :
  to_float (tabulate d g) = FArray (tabulate d (fun j => F64.of_int (g j))).
Proof. unfold to_float. now rewrite tabulate_map. Qed.

Lemma mask_assign_tabulate (d : nat) g (m : nat -> bool) h :
  mask_assign (tabulate d g) (tabulate d m) (tabulate d h)
  = tabulate d (fun j => if m j then h j else g j).
Proof.
  unfold tabulate. generalize 0%nat.
  induction d as [|d IH]; intros k; simpl; auto.
  now rewrite IH.
Qed.

Lemma setitem_mask_tabulate (d : nat) g (m : nat -> bool) h :
  setitem_mask (FArray (tabulate d g)) (tabulate d m) (FArray (tabulate d h))
  = Ok (FArray (tabulate d (fun j => if m j then h j else g j))).
Proof.
  unfold setitem_mask. rewrite !tabulate_length, Nat.eqb_refl. simpl.
  now rewrite mask_assign_tabulate.
Qed.

(** ** What [_incremental_mean_and_var] computes on well-shaped operands *)

Lemma incremental_run_tabulated (X : array2) (eps : float) (rng : range_t)
      (lm : farr) (lv : option farr) (w : world) (d : nat)
      (glc : nat -> Z) (gnm gnv : nat -> float) :
  shape1 X = d -> fshape d lm ->
  nanmean (length (calls w)) X eps rng = tabulate d gnm ->
  match lv with
  | None => True
  | Some v => fshape d v /\
              nanvar (S (length (calls w))) X eps rng = tabulate d gnv
  end ->
  _incremental_mean_and_var X eps rng (Some lm) lv (tabulate d glc) w
  = (Ok (FArray (tabulate d (fun j =>
                   mean_updated (fget lm j) (glc j) (gnm j) (observed X j))),
         match lv with
         | None => None
         | Some v =>
             Some (FArray (tabulate d (fun j =>
                     var_updated (fget lm j) (fget v j) (glc j)
                       (gnm j) (gnv j) (observed X j))))
         end,
         tabulate d (fun j => count_updated (glc j) (observed X j))),
     mkWorld (self w) (calls w ++ calls_of_merge X eps rng lv)).
Proof.
  intros HX Hlm Hnm Hlv.
  assert (Ecnt : count_not_nan X = tabulate d (observed X)).
  { unfold count_not_nan. now rewrite HX. }
  unfold _incremental_mean_and_var, bind, lift, ret, call_nanmean, call_nanvar.
  rewrite Ecnt, Hnm.
  rewrite !to_float_tabulate, (fbinop_tabulate _ _ _ _ Hlm).
  rewrite fbinop_tabulate2, broadcast2_tabulate.
  rewrite fbinop_tabulate2, to_float_tabulate, fbinop_tabulate2.
  destruct lv as [v|].
  - destruct Hlv as [Hv Hnv]. cbn [calls self].
    rewrite length_app, Nat.add_1_r. cbn [length].
    rewrite Hnv, fbinop_tabulate2, (fbinop_tabulate _ _ _ _ Hv).
    rewrite !fbinop_tabulate2.
    cbn [fmap]. rewrite tabulate_map, !fbinop_tabulate2.
    rewrite tabulate_map, setitem_mask_tabulate.
    rewrite fbinop_tabulate2.
    rewrite <- app_assoc. reflexivity.
  - reflexivity.
Qed.

Lemma incremental_run (X : array2) (eps : float) (rng : range_t)
      (lm : farr) (lv : option farr) (lc : list Z) (w : world) (d : nat) :
  shape1 X = d -> fshape d lm -> length lc = d ->
  length (nanmean (length (calls w)) X eps rng) = d ->
  match lv with
  | None => True
  | Some v => fshape d v /\
              length (nanvar (S (length (calls w))) X eps rng) = d
  end ->
  _incremental_mean_and_var X eps rng (Some lm) lv lc w
  = (Ok (FArray (tabulate d (fun j =>
                   mean_updated (fget lm j) (nth j lc 0)
                     (nth j (nanmean (length (calls w)) X eps rng) F64.nan)
                     (observed X j))),
         match lv with
         | None => None
         | Some v =>
             Some (FArray (tabulate d (fun j =>
                     var_updated (fget lm j) (fget v j) (nth j lc 0)
                       (nth j (nanmean (length (calls w)) X eps rng) F64.nan)
                       (nth j (nanvar (S (length (calls w))) X eps rng) F64.nan)
                       (observed X j))))
         end,
         tabulate d (fun j => count_updated (nth j lc 0) (observed X j))),
     mkWorld (self w) (calls w ++ calls_of_merge X eps rng lv)).
Proof.
  intros HX Hlm Hlc Hnm Hlv.
  rewrite (tabulate_of_list lc 0) at 1. rewrite Hlc.
  apply incremental_run_tabulated; auto.
  - rewrite <- Hnm. apply tabulate_of_list.
  - destruct lv as [v|]; auto. destruct Hlv as [Hv Hnv]. split; auto.
    rewrite <- Hnv. apply tabulate_of_list.
Qed.

(** ** What a merge does to the world, whatever the shapes *)

Ltac case_res H :=
  match type of H with
  | context [match ?x with Ok _ => _ | Raise _ => _ end] =>
      let E := fresh "E" in destruct x eqn:E; cbn [fst snd self calls] in H
  end.

Lemma incremental_inv (X : array2) (eps : float) (rng : range_t)
      (lm lv : option farr) (lc : list Z) (w w' : world) um uv uc :
  _incremental_mean_and_var X eps rng lm lv lc w = (Ok (um, uv, uc), w') ->
  self w' = self w /\
  calls w' = calls w ++ calls_of_merge X eps rng lv /\
  (lv = None <-> uv = None) /\
  broadcast2 I64.add lc (count_not_nan X) = Ok uc.
Proof.
  unfold _incremental_mean_and_var, bind, lift, ret, call_nanmean, call_nanvar,
    calls_of_merge.
  intros H. destruct lm as [lm|]; [|discriminate].
  repeat (case_res H; [|discriminate]).
  destruct lv as [v|].
  - repeat (case_res H; [|discriminate]).
    inversion H; subst; clear H. cbn. rewrite <- app_assoc.
    repeat split; auto; discriminate.
  - inversion H; subst; clear H. cbn. repeat split; auto.
Qed.


(** ** What a successful [partial_fit] leaves behind *)

Arguments _incremental_mean_and_var : simpl never.

Lemma partial_fit_inv_tracking (X : array2) (w w' : world) :
  partial_fit X w = (Ok tt, w') ->
  tracking (self w) = true ->
  exists Xc m v um uv uc s1 w2 n0 ns',
    check_array (copy (self w)) X = Ok Xc /\
    prior_mean (self w) = Some m /\
    prior_var (self w) = Some v /\
    _incremental_mean_and_var Xc (epsilon_0 (self w)) (range (self w)) m v
      (prior_counts (self w) (shape1 Xc)) (mkWorld s1 (calls w))
    = (Ok (um, uv, uc), w2) /\
    uc = n0 :: ns' /\
    calls w' = calls w2 /\
    self w' = fitted (self w)
                (if Z.eqb (I64.sub (list_max n0 ns') (list_min n0 ns')) 0
                 then IScalar n0 else IArray uc)
                (Some um) uv
                (if truthy (with_std (self w))
                 then option_map (fun a => _handle_zeros_in_scale (fmap F64.sqrt a)) uv
                 else None) /\
    (truthy (with_std (self w)) = true -> uv <> None).
Proof.
  destruct w as [s c]. destruct s as [eps rng cp wm ws n m v sc].
  unfold tracking, partial_fit, bind, get_self, lift, update, getattr, ret, raise.
  cbn [self calls with_mean with_std copy range epsilon n_samples_seen_ mean_ var_ scale_].
  intros H Ht.
  destruct (check_array cp X) as [Xc|] eqn:EX; [|discriminate].
  exists Xc.
  destruct n as [[n|ns]|]; destruct sc as [sc|]; destruct ws as [[|]|];
    destruct wm; try discriminate Ht;
    cbn [self calls with_mean with_std copy range epsilon n_samples_seen_
         mean_ var_ scale_ set_n_samples_seen_ set_mean_ set_var_ set_scale_
         truthy negb andb as_array] in H.
  all: try (destruct m as [m|]; [|discriminate]).
  all: try (destruct v as [v|]; [|discriminate]).
  all: cbn [self calls with_mean with_std copy range epsilon n_samples_seen_
         mean_ var_ scale_ set_n_samples_seen_ set_mean_ set_var_ set_scale_
         truthy negb andb as_array] in H.
  all: match type of H with
       | context [_incremental_mean_and_var ?a ?b ?c ?d ?e ?f ?g] =>
           destruct (_incremental_mean_and_var a b c d e f g) as [[[[um uv] uc]|] w2] eqn:EI;
           [|discriminate]
       end.
  all: pose proof (incremental_inv _ _ _ _ _ _ _ _ _ _ _ EI) as (Hs & _ & Hv & _);
    cbn [self] in Hs; rewrite Hs in H;
    cbn [self calls with_mean with_std copy range epsilon n_samples_seen_
         mean_ var_ scale_ set_n_samples_seen_ set_mean_ set_var_ set_scale_
         truthy negb andb as_array] in H;
    destruct uc as [|n0 ns']; [discriminate|]; cbn [ptp] in H;
    destruct (Z.eqb (I64.sub (list_max n0 ns') (list_min n0 ns')) 0) eqn:Eptp;
    cbn [self calls with_mean with_std copy range epsilon n_samples_seen_
         mean_ var_ scale_ set_n_samples_seen_ set_mean_ set_var_ set_scale_
         truthy negb andb as_array np_sqrt] in H.
  all: try (destruct uv as [uv|]; [|discriminate]).
  all: cbn [self calls with_mean with_std copy range epsilon n_samples_seen_
         mean_ var_ scale_ set_n_samples_seen_ set_mean_ set_var_ set_scale_
         truthy negb andb as_array np_sqrt] in H.
  all: inversion H; subst w'; clear H.
  all: do 9 eexists.
  all: unfold prior_mean, prior_var, prior_counts, epsilon_0, fitted;
    cbn [self calls with_mean with_std copy range epsilon n_samples_seen_
         mean_ var_ scale_ truthy option_map].
  all: split; [reflexivity|]; split; [reflexivity|]; split; [reflexivity|];
    split; [exact EI|]; split; [reflexivity|]; split; [reflexivity|];
    split; [cbn; rewrite Eptp; reflexivity|discriminate].
Qed.

Lemma partial_fit_inv_untracked (X : array2) (w w' : world) :
  partial_fit X w = (Ok tt, w') ->
  tracking (self w) = false ->
  exists Xc n0 ns',
    check_array (copy (self w)) X = Ok Xc /\
    iadd_inplace (prior_counts (self w) (shape1 Xc))
      (map (fun k => I64.sub (Z.of_nat (shape0 Xc)) k) (count_nan Xc))
    = Ok (n0 :: ns') /\
    calls w' = calls w /\
    self w' = fitted (self w)
                (if Z.eqb (I64.sub (list_max n0 ns') (list_min n0 ns')) 0
                 then IScalar n0 else IArray (n0 :: ns'))
                None None None.
Proof.
  destruct w as [s c]. destruct s as [eps rng cp wm ws n m v sc].
  unfold tracking, partial_fit, bind, get_self, lift, update, getattr, ret, raise.
  cbn [self calls with_mean with_std copy range epsilon n_samples_seen_ mean_ var_ scale_].
  intros H Ht.
  destruct (check_array cp X) as [Xc|] eqn:EX; [|discriminate].
  exists Xc.
  destruct n as [[n|ns]|]; destruct sc as [sc|]; destruct ws as [[|]|];
    destruct wm; try discriminate Ht;
    cbn [self calls with_mean with_std copy range epsilon n_samples_seen_
         mean_ var_ scale_ set_n_samples_seen_ set_mean_ set_var_ set_scale_
         truthy negb andb as_array] in H.
  all: unfold prior_counts, fitted;
    cbn [self calls with_mean with_std copy range epsilon n_samples_seen_
         mean_ var_ scale_].
  all: match type of H with
       | context [iadd_inplace ?a ?b] =>
           destruct (iadd_inplace a b) as [[|n0 ns']|] eqn:EA; try discriminate
       end.
  all: cbn [self calls with_mean with_std copy range epsilon n_samples_seen_
         mean_ var_ scale_ set_n_samples_seen_ set_mean_ set_var_ set_scale_
         truthy negb andb as_array ptp] in H.
  all: exists n0, ns'.
  all: destruct (Z.eqb (I64.sub (list_max n0 ns') (list_min n0 ns')) 0) eqn:Eptp;
    cbn [self calls with_mean with_std copy range epsilon n_samples_seen_
         mean_ var_ scale_ set_n_samples_seen_ set_mean_ set_var_ set_scale_
         truthy negb andb as_array] in H;
    inversion H; subst w'; clear H; repeat split; reflexivity.
Qed.

(** ** int64 facts and the collapse of the counts *)

Lemma wrap_in_range (z : Z) : I64.in_range (I64.wrap z).
Proof.
  unfold I64.in_range, I64.wrap, I64.modulus, I64.half.
  assert (H := Z.mod_pos_bound (z + 2 ^ 63) (2 ^ 64) ltac:(lia)). lia.
Qed.

Lemma wrap_small (z : Z) : I64.in_range z -> I64.wrap z = z.
Proof.
  unfold I64.in_range, I64.wrap, I64.modulus, I64.half. intros H.
  rewrite Z.mod_small; lia.
Qed.

Lemma wrap_zero_iff (z : Z) : 0 <= z < I64.modulus -> (I64.wrap z = 0 <-> z = 0).
Proof.
  unfold I64.wrap, I64.modulus, I64.half. intros H. split.
  - intros E. destruct (Z_lt_ge_dec z (2 ^ 63)) as [Hlt|Hge].
    + rewrite Z.mod_small in E; lia.
    + replace (z + 2 ^ 63) with ((z - 2 ^ 63) + 1 * 2 ^ 64) in E by lia.
      rewrite Z.mod_add, Z.mod_small in E; lia.
  - intros ->. reflexivity.
Qed.

Lemma list_max_spec (ns : list Z) (n : Z) :
  n <= list_max n ns /\
  (forall x, In x ns -> x <= list_max n ns) /\
  (list_max n ns = n \/ In (list_max n ns) ns).
Proof.
  unfold list_max. revert n. induction ns as [|a ns IH]; intros n; simpl.
  - repeat split; auto; try lia; intros x [].
  - destruct (IH (Z.max n a)) as (H1 & H2 & H3). repeat split.
    + lia.
    + intros x [<-|Hx]; [lia|auto].
    + destruct H3 as [H3|H3]; auto.
      rewrite H3. destruct (Z.max_spec n a) as [[_ ->]|[_ ->]]; auto.
Qed.

Lemma list_min_spec (ns : list Z) (n : Z) :
  list_min n ns <= n /\
  (forall x, In x ns -> list_min n ns <= x) /\
  (list_min n ns = n \/ In (list_min n ns) ns).
Proof.
  unfold list_min. revert n. induction ns as [|a ns IH]; intros n; simpl.
  - repeat split; auto; try lia; intros x [].
  - destruct (IH (Z.min n a)) as (H1 & H2 & H3). repeat split.
    + lia.
    + intros x [<-|Hx]; [lia|auto].
    + destruct H3 as [H3|H3]; auto.
      rewrite H3. destruct (Z.min_spec n a) as [[_ ->]|[_ ->]]; auto.
Qed.

Lemma ptp_zero_all_equal (n0 : Z) (ns : list Z) :
  Forall I64.in_range (n0 :: ns) ->
  Z.eqb (I64.sub (list_max n0 ns) (list_min n0 ns)) 0 = all_equal (n0 :: ns).
Proof.
  intros Hr. rewrite Forall_forall in Hr.
  destruct (list_max_spec ns n0) as (M1 & M2 & M3).
  destruct (list_min_spec ns n0) as (m1 & m2 & m3).
  assert (RM : I64.in_range (list_max n0 ns)).
  { apply Hr. destruct M3 as [->|M3]; [now left|now right]. }
  assert (Rm : I64.in_range (list_min n0 ns)).
  { apply Hr. destruct m3 as [->|m3]; [now left|now right]. }
  assert (Hw : I64.wrap (list_max n0 ns - list_min n0 ns) = 0
               <-> list_max n0 ns - list_min n0 ns = 0).
  { apply wrap_zero_iff. unfold I64.in_range, I64.half, I64.modulus in *. lia. }
  unfold I64.sub, all_equal.
  destruct (forallb (Z.eqb n0) ns) eqn:Ea.
  - rewrite forallb_forall in Ea. apply Z.eqb_eq, Hw.
    assert (list_max n0 ns = n0).
    { destruct M3 as [|M3]; auto. symmetry. now apply Z.eqb_eq, Ea. }
    assert (list_min n0 ns = n0).
    { destruct m3 as [|m3]; auto. symmetry. now apply Z.eqb_eq, Ea. }
    lia.
  - apply Z.eqb_neq. intros E. apply Hw in E.
    assert (Hall : forallb (Z.eqb n0) ns = true); [|congruence].
    apply forallb_forall. intros x Hx. apply Z.eqb_eq.
    specialize (M2 x Hx). specialize (m2 x Hx). lia.
Qed.

Lemma zip_with_Forall {A B C : Type} (P : C -> Prop) (f : A -> B -> C) xs ys :
  (forall x y, P (f x y)) -> Forall P (zip_with f xs ys).
Proof.
  intros Hf. revert ys. induction xs as [|x xs IH]; intros [|y ys]; simpl; auto.
Qed.

Lemma broadcast2_Forall {A B C : Type} (P : C -> Prop) (f : A -> B -> C) xs ys zs :
  (forall x y, P (f x y)) -> broadcast2 f xs ys = Ok zs -> Forall P zs.
Proof.
  intros Hf. unfold broadcast2.
  destruct (Nat.eqb (length xs) (length ys)).
  - intros H; inversion H; subst. now apply zip_with_Forall.
  - destruct xs as [|x [|x' xs]]; destruct ys as [|y [|y' ys]];
      intros H; inversion H; subst; simpl; repeat constructor; auto;
      apply Forall_forall; intros z Hz; apply in_map_iff in Hz;
      destruct Hz as (? & <- & _); auto.
Qed.

Lemma iadd_inplace_Forall (ns vs zs : list Z) :
  iadd_inplace ns vs = Ok zs -> Forall I64.in_range zs.
Proof.
  unfold iadd_inplace. destruct (Nat.eqb (length ns) (length vs)).
  - intros H; inversion H; subst. apply zip_with_Forall.
    intros; apply wrap_in_range.
  - destruct vs as [|v [|v' vs]]; intros H; inversion H; subst.
    apply Forall_forall; intros z Hz; apply in_map_iff in Hz;
      destruct Hz as (? & <- & _). apply wrap_in_range.
Qed.

Lemma collapse_ptp (n0 : Z) (ns : list Z) :
  Forall I64.in_range (n0 :: ns) ->
  (if Z.eqb (I64.sub (list_max n0 ns) (list_min n0 ns)) 0
   then IScalar n0 else IArray (n0 :: ns))
  = collapse (n0 :: ns).
Proof.
  intros H. rewrite (ptp_zero_all_equal _ _ H). reflexivity.
Qed.

(** ** Zero counts in binary64 *)

Lemma mul_zero_count (x : float) :
  F64.mul x (F64.of_int 0) = F64.nan \/
  exists s, F64.mul x (F64.of_int 0) = S754_zero s.
Proof.
  destruct x as [s|s| |s m e]; cbn; eauto.
Qed.

Lemma mean_updated_no_observation (meanOld meanNew : float) :
  mean_updated meanOld 0 meanNew 0 = F64.nan.
Proof.
  unfold mean_updated, count_updated.
  change (I64.add 0 0) with 0.
  destruct (mul_zero_count meanOld) as [->|[s ->]];
    destruct (mul_zero_count meanNew) as [->|[t ->]]; try reflexivity.
  destruct s, t; reflexivity.
Qed.

(** ** The mean and the count of a merge that returns *)

Lemma incremental_mean_inv (X : array2) (eps : float) (rng : range_t)
      (lm : farr) (lv : option farr) (lc : list Z) (w w' : world) (d : nat)
      um uv uc :
  shape1 X = d -> fshape d lm -> length lc = d ->
  length (nanmean (length (calls w)) X eps rng) = d ->
  _incremental_mean_and_var X eps rng (Some lm) lv lc w = (Ok (um, uv, uc), w') ->
  um = FArray (tabulate d (fun j =>
         mean_updated (fget lm j) (nth j lc 0)
           (nth j (nanmean (length (calls w)) X eps rng) F64.nan)
           (observed X j))) /\
  uc = tabulate d (fun j => count_updated (nth j lc 0) (observed X j)).
Proof.
  intros HX Hlm Hlc Hnm H.
  assert (Ecnt : count_not_nan X = tabulate d (observed X)).
  { unfold count_not_nan. now rewrite HX. }
  assert (Elc : lc = tabulate d (fun j => nth j lc 0)).
  { rewrite <- Hlc. apply tabulate_of_list. }
  assert (Enm : nanmean (length (calls w)) X eps rng
                = tabulate d (fun j => nth j (nanmean (length (calls w)) X eps rng) F64.nan)).
  { rewrite <- Hnm. apply tabulate_of_list. }
  revert H. generalize (fun j => nth j lc 0) Elc. intros glc ->.
  generalize (fun j => nth j (nanmean (length (calls w)) X eps rng) F64.nan) Enm.
  intros gnm Egnm.
  unfold _incremental_mean_and_var, bind, lift, ret, call_nanmean, call_nanvar.
  rewrite Ecnt, Egnm.
  rewrite !to_float_tabulate, (fbinop_tabulate _ _ _ _ Hlm).
  rewrite fbinop_tabulate2, broadcast2_tabulate.
  rewrite fbinop_tabulate2, to_float_tabulate, fbinop_tabulate2.
  intros H.
  assert (Hfin : forall (x : farr) (y : list Z),
             x = FArray (tabulate d (fun j =>
                   mean_updated (fget lm j) (glc j) (gnm j) (observed X j))) ->
             y = tabulate d (fun j => count_updated (glc j) (observed X j)) ->
             x = FArray (tabulate d (fun j =>
                   mean_updated (fget lm j) (nth j (tabulate d glc) 0)
                     (nth j (tabulate d gnm) F64.nan) (observed X j))) /\
             y = tabulate d (fun j =>
                   count_updated (nth j (tabulate d glc) 0) (observed X j))).
  { intros x y -> ->. split; [f_equal|]; apply tabulate_ext; intros j Hj;
      now rewrite ?tabulate_nth by exact Hj. }
  destruct lv as [v|].
  - repeat (case_res H; [|discriminate]).
    inversion H; subst. now apply Hfin.
  - inversion H; subst. now apply Hfin.
Qed.

(** * The claims *)

(** C1.  Merging a prior aggregate with a batch when a variance is tracked:
    the merge returns, and for every feature [j] the merged variance is
    [unnormVarUpdated / countUpdated], where [unnormVarUpdated] is
    [unnormVarOld + unnormVarNew + (ratio / countUpdated) * (sumOld / ratio - sumNew)^2]
    when both counts are positive, and is [unnormVarNew] when
    [countOld = 0]. *)
Theorem merge_variance_formula (X : array2) (eps : float) (rng : range_t)
        (lm lv : farr) (lc : list Z) (w : world) (d : nat) :
  shape1 X = d -> fshape d lm -> fshape d lv -> length lc = d ->
  length (nanmean (length (calls w)) X eps rng) = d ->
  length (nanvar (S (length (calls w))) X eps rng) = d ->
  exists um uv uc w',
    _incremental_mean_and_var X eps rng (Some lm) (Some lv) lc w
    = (Ok (um, Some (FArray uv), uc), w') /\
    length uv = d /\
    forall j, (j < d)%nat ->
      let meanOld := fget lm j in
      let varOld := fget lv j in
      let countOld := nth j lc 0 in
      let meanNew := nth j (nanmean (length (calls w)) X eps rng) F64.nan in
      let varNew := nth j (nanvar (S (length (calls w))) X eps rng) F64.nan in
      let countNew := observed X j in
      let countUpdated := F64.of_int (I64.add countOld countNew) in
      let sumOld := F64.mul meanOld (F64.of_int countOld) in
      let sumNew := F64.mul meanNew (F64.of_int countNew) in
      let unnormVarOld := F64.mul varOld (F64.of_int countOld) in
      let unnormVarNew := F64.mul varNew (F64.of_int countNew) in
      let ratio := F64.div (F64.of_int countOld) (F64.of_int countNew) in
      (0 < countOld -> 0 < countNew ->
       nth j uv F64.nan
       = F64.div
           (F64.add (F64.add unnormVarOld unnormVarNew)
              (F64.mul (F64.div ratio countUpdated)
                 (F64.square (F64.sub (F64.div sumOld ratio) sumNew))))
           countUpdated) /\
      (countOld = 0 ->
       nth j uv F64.nan = F64.div unnormVarNew countUpdated).
Proof.
  intros HX Hlm Hlv Hlc Hnm Hnv.
  rewrite (incremental_run X eps rng lm (Some lv) lc w d) by auto.
  do 4 eexists. split; [reflexivity|]. split; [apply tabulate_length|].
  intros j Hj. cbv zeta. rewrite tabulate_nth by exact Hj.
  unfold var_updated, unnorm_var_updated, unnorm_var_chan, count_updated.
  split.
  - intros Hold _. destruct (Z.eqb_spec (nth j lc 0) 0); [lia|reflexivity].
  - intros ->. reflexivity.
Qed.

(** C2.  Every merge returns, on well-shaped operands, per feature [j]:
    [countNew] is the number of non-NaN entries of the feature in the
    batch, [countUpdated = countOld + countNew] (in int64), and
    [meanUpdated = (meanOld * countOld + meanNew * countNew) / countUpdated]
    with [meanNew] the privatized mean of the batch. *)
Theorem merge_mean_and_count (X : array2) (eps : float) (rng : range_t)
        (lm : farr) (lv : option farr) (lc : list Z) (w : world) (d : nat) :
  shape1 X = d -> fshape d lm -> length lc = d ->
  length (nanmean (length (calls w)) X eps rng) = d ->
  match lv with
  | None => True
  | Some v => fshape d v /\
              length (nanvar (S (length (calls w))) X eps rng) = d
  end ->
  exists um uv uc w',
    _incremental_mean_and_var X eps rng (Some lm) lv lc w
    = (Ok (FArray um, uv, uc), w') /\
    length um = d /\ length uc = d /\
    forall j, (j < d)%nat ->
      let meanOld := fget lm j in
      let countOld := nth j lc 0 in
      let meanNew := nth j (nanmean (length (calls w)) X eps rng) F64.nan in
      let countNew :=
        Z.of_nat (length (filter (fun x => negb (F64.isnan x)) (column X j))) in
      let countUpdated := nth j uc 0 in
      countUpdated = I64.add countOld countNew /\
      (I64.in_range (countOld + countNew) -> countUpdated = countOld + countNew) /\
      nth j um F64.nan
      = F64.div (F64.add (F64.mul meanOld (F64.of_int countOld))
                         (F64.mul meanNew (F64.of_int countNew)))
                (F64.of_int countUpdated).
Proof.
  intros HX Hlm Hlc Hnm Hlv.
  rewrite (incremental_run X eps rng lm lv lc w d) by auto.
  do 4 eexists. split; [reflexivity|].
  split; [apply tabulate_length|]. split; [apply tabulate_length|].
  intros j Hj. cbv zeta. rewrite !tabulate_nth by exact Hj.
  unfold mean_updated, count_updated, observed, count_true, I64.add.
  repeat split. intros Hr. now apply wrap_small.
Qed.

Lemma handle_zeros_sqrt (v : farr) :
  _handle_zeros_in_scale (fmap F64.sqrt v) = fmap scale_of v.
Proof.
  destruct v as [x|xs]; unfold _handle_zeros_in_scale; simpl; auto.
  now rewrite map_map.
Qed.

Lemma tracking_with_std (s : scaler) :
  with_std s = Some true -> tracking s = true.
Proof. unfold tracking. intros ->. apply orb_true_r. Qed.

(** C4.  A [partial_fit] call that returns on an estimator with
    [with_std = True] has made exactly two calls to the statistic sources
    on the validated batch: the privatized mean with half the declared
    epsilon, then the privatized variance with the other half. *)
Theorem budget_split_with_std (X : array2) (w w' : world) :
  with_std (self w) = Some true ->
  partial_fit X w = (Ok tt, w') ->
  exists Xc,
    check_array (copy (self w)) X = Ok Xc /\
    calls w' = calls w ++
      [CallMean Xc (F64.div (epsilon (self w)) (F64.of_int 2)) (range (self w));
       CallVar Xc (F64.div (epsilon (self w)) (F64.of_int 2)) (range (self w))].
Proof.
  intros Hstd H.
  destruct (partial_fit_inv_tracking X w w' H (tracking_with_std _ Hstd))
    as (Xc & m & v & um & uv & uc & s1 & w2 & n0 & ns' &
        HX & _ & _ & HI & _ & Hc & _ & Huv).
  exists Xc. split; [exact HX|].
  destruct (incremental_inv _ _ _ _ _ _ _ _ _ _ _ HI) as (_ & Hcalls & Hv & _).
  rewrite Hc, Hcalls. cbn [calls]. f_equal.
  unfold calls_of_merge, epsilon_0. rewrite Hstd.
  destruct v as [v|]; [reflexivity|].
  exfalso. apply Huv; [now rewrite Hstd|]. now apply Hv.
Qed.

(** C9.  After a [partial_fit] call that returns, with [with_std = True]
    the attribute [scale_] is the elementwise square root of [var_] with
    every zero replaced by 1; with [with_std = False] it is [None]. *)
Theorem derived_scale (X : array2) (w w' : world) :
  partial_fit X w = (Ok tt, w') ->
  (with_std (self w) = Some true ->
   exists v, var_ (self w') = Some (Some v) /\
             scale_ (self w') = Some (Some (fmap scale_of v))) /\
  (with_std (self w) = Some false -> scale_ (self w') = Some None).
Proof.
  intros H. split; intros Hstd.
  - destruct (partial_fit_inv_tracking X w w' H (tracking_with_std _ Hstd))
      as (Xc & m & v & um & uv & uc & s1 & w2 & n0 & ns' &
          _ & _ & _ & _ & _ & _ & Hs & Huv).
    rewrite Hs, Hstd. cbn [fitted var_ scale_ truthy].
    destruct uv as [uv|].
    + exists uv. cbn [option_map]. now rewrite handle_zeros_sqrt.
    + exfalso. apply Huv; [now rewrite Hstd|reflexivity].
  - destruct (tracking (self w)) eqn:Ht.
    + destruct (partial_fit_inv_tracking X w w' H Ht)
        as (Xc & m & v & um & uv & uc & s1 & w2 & n0 & ns' &
            _ & _ & _ & _ & _ & _ & Hs & _).
      rewrite Hs, Hstd. reflexivity.
    + destruct (partial_fit_inv_untracked X w w' H Ht)
        as (Xc & n0 & ns' & _ & _ & _ & Hs).
      rewrite Hs. reflexivity.
Qed.

Lemma count_true_split (xs : list float) :
  count_true F64.isnan xs + count_true (fun x => negb (F64.isnan x)) xs
  = Z.of_nat (length xs).
Proof.
  unfold count_true. induction xs as [|x xs IH]; simpl; auto.
  destruct (F64.isnan x); simpl length; lia.
Qed.

Lemma count_true_bounds (p : float -> bool) (xs : list float) :
  0 <= count_true p xs <= Z.of_nat (length xs).
Proof.
  unfold count_true. pose proof (filter_length_le p xs). lia.
Qed.

Lemma column_length (X : array2) (j : nat) : length (column X j) = shape0 X.
Proof. unfold column, shape0. apply length_map. Qed.

Lemma seen_is_observed (X : array2) (j : nat) :
  Z.of_nat (shape0 X) < I64.half ->
  I64.sub (Z.of_nat (shape0 X)) (count_true F64.isnan (column X j))
  = observed X j.
Proof.
  intros Hn. unfold I64.sub, observed.
  pose proof (count_true_split (column X j)) as Hs.
  pose proof (count_true_bounds F64.isnan (column X j)) as Hb.
  pose proof (count_true_bounds (fun x => negb (F64.isnan x)) (column X j)) as Hb'.
  rewrite column_length in *.
  rewrite wrap_small; [lia|].
  unfold I64.in_range, I64.half in *. lia.
Qed.

Lemma merged_counts_tracked (lc cnt uc : list Z) (d : nat) (g : nat -> Z) :
  length lc = d -> cnt = tabulate d g ->
  broadcast2 I64.add lc cnt = Ok uc ->
  uc = tabulate d (fun j => I64.add (nth j lc 0) (g j)).
Proof.
  intros Hlc -> H. rewrite (tabulate_of_list lc 0), Hlc in H.
  rewrite broadcast2_tabulate in H. inversion H; subst. reflexivity.
Qed.

Lemma merged_counts_untracked (lc uc : list Z) (X : array2) (d : nat) :
  length lc = d -> shape1 X = d -> Z.of_nat (shape0 X) < I64.half ->
  iadd_inplace lc (map (fun k => I64.sub (Z.of_nat (shape0 X)) k) (count_nan X))
  = Ok uc ->
  uc = tabulate d (fun j => I64.add (nth j lc 0) (observed X j)).
Proof.
  intros Hlc HX Hn H. unfold count_nan in H. rewrite HX, tabulate_map in H.
  unfold iadd_inplace in H. rewrite tabulate_length, Hlc, Nat.eqb_refl in H.
  inversion H; subst. rewrite (tabulate_of_list lc 0) at 1.
  rewrite zip_with_tabulate. apply tabulate_ext. intros j Hj.
  now rewrite seen_is_observed.
Qed.

(** C8.  A [partial_fit] call that returns has merged the counts feature
    by feature, a prior scalar count standing for that many samples of
    every feature; afterwards [n_samples_seen_] is a single scalar when all
    merged counts are equal, and the vector of merged counts otherwise. *)
Theorem count_representation (X Xc : array2) (w w' : world) (d : nat) :
  partial_fit X w = (Ok tt, w') ->
  check_array (copy (self w)) X = Ok Xc ->
  shape1 Xc = d ->
  length (prior_counts (self w) d) = d ->
  (tracking (self w) = false -> Z.of_nat (shape0 Xc) < I64.half) ->
  let prior := prior_counts (self w) d in
  let merged := tabulate d (fun j => I64.add (nth j prior 0) (observed Xc j)) in
  (forall n, n_samples_seen_ (self w) = Some (IScalar n) -> prior = repeat n d) /\
  n_samples_seen_ (self w')
  = Some (if all_equal merged then IScalar (hd 0 merged) else IArray merged).
Proof.
  intros H HX Hd Hlen Hrows prior merged. split.
  { intros n Hn. unfold prior, prior_counts. now rewrite Hn. }
  fold (collapse merged).
  destruct (tracking (self w)) eqn:Ht.
  - destruct (partial_fit_inv_tracking X w w' H Ht)
      as (Xc' & m & v & um & uv & uc & s1 & w2 & n0 & ns' &
          HX' & _ & _ & HI & Huc & _ & Hs & _).
    rewrite HX in HX'. inversion HX'; subst Xc'. rewrite Hd in HI.
    destruct (incremental_inv _ _ _ _ _ _ _ _ _ _ _ HI) as (_ & _ & _ & Hb).
    assert (Hr : Forall I64.in_range uc).
    { eapply broadcast2_Forall; [|exact Hb]. intros; apply wrap_in_range. }
    apply (merged_counts_tracked _ _ _ d (observed Xc) Hlen) in Hb;
      [|unfold count_not_nan; now rewrite Hd].
    rewrite Hs. cbn [fitted n_samples_seen_]. f_equal.
    fold prior in Hb. fold merged in Hb. rewrite <- Hb, Huc.
    apply collapse_ptp. now rewrite <- Huc.
  - destruct (partial_fit_inv_untracked X w w' H Ht)
      as (Xc' & n0 & ns' & HX' & Ha & _ & Hs).
    rewrite HX in HX'. inversion HX'; subst Xc'. rewrite Hd in Ha.
    pose proof (iadd_inplace_Forall _ _ _ Ha) as Hr.
    apply (merged_counts_untracked _ _ _ d Hlen Hd (Hrows eq_refl)) in Ha.
    rewrite Hs. cbn [fitted n_samples_seen_]. f_equal.
    fold prior in Ha. fold merged in Ha. rewrite <- Ha.
    now apply collapse_ptp.
Qed.

(** The case of an estimator that tracks a statistic: when it has seen no
    observation of feature [j], neither before nor in the batch,
    [partial_fit] either raises or leaves NaN as the mean of that feature. *)
Theorem no_observation_mean_is_nan (X Xc : array2) (w w' : world)
        (r : res unit) (d j : nat) :
  tracking (self w) = true ->
  check_array (copy (self w)) X = Ok Xc ->
  shape1 Xc = d -> (j < d)%nat ->
  (forall m, prior_mean (self w) = Some (Some m) -> fshape d m) ->
  length (prior_counts (self w) d) = d ->
  length (nanmean (length (calls w)) Xc (epsilon_0 (self w)) (range (self w))) = d ->
  nth j (prior_counts (self w) d) 0 = 0 ->
  observed Xc j = 0 ->
  partial_fit X w = (r, w') ->
  (exists e, r = Raise e) \/
  (exists um, mean_ (self w') = Some (Some (FArray um)) /\
              nth j um F64.zero = F64.nan).
Proof.
  intros Ht HX Hd Hj Hm Hlc Hnm Hold Hnew H.
  destruct r as [[]|e]; [right|left; eauto].
  destruct (partial_fit_inv_tracking X w w' H Ht)
    as (Xc' & m & v & um & uv & uc & s1 & w2 & n0 & ns' &
        HX' & Hpm & _ & HI & _ & _ & Hs & _).
  rewrite HX in HX'. inversion HX'; subst Xc'. rewrite Hd in HI.
  destruct m as [lm|]; [|discriminate HI].
  apply (incremental_mean_inv _ _ _ _ _ _ _ _ d) in HI; auto.
  destruct HI as [-> _].
  eexists. rewrite Hs. split; [reflexivity|].
  rewrite tabulate_nth by exact Hj.
  rewrite Hold, Hnew. apply mean_updated_no_observation.
Qed.

(** C3 (what the code does).  On an estimator with [with_std = False] and
    [with_mean = True], a [partial_fit] call that returns has called the
    privatized mean with half the declared epsilon. *)
Theorem budget_without_std (X : array2) (w w' : world) :
  with_std (self w) = Some false ->
  with_mean (self w) = true ->
  partial_fit X w = (Ok tt, w') ->
  exists Xc l,
    check_array (copy (self w)) X = Ok Xc /\
    calls w' = calls w ++
      CallMean Xc (F64.div (epsilon (self w)) (F64.of_int 2)) (range (self w)) :: l.
Proof.
  intros Hstd Hmean H.
  assert (Ht : tracking (self w) = true) by (unfold tracking; now rewrite Hmean).
  destruct (partial_fit_inv_tracking X w w' H Ht)
    as (Xc & m & v & um & uv & uc & s1 & w2 & n0 & ns' &
        HX & _ & _ & HI & _ & Hc & _ & _).
  destruct (incremental_inv _ _ _ _ _ _ _ _ _ _ _ HI) as (_ & Hcalls & _ & _).
  exists Xc. eexists. split; [exact HX|].
  rewrite Hc, Hcalls. cbn [calls]. unfold calls_of_merge, epsilon_0.
  rewrite Hstd. reflexivity.
Qed.

(** ** A NaN mean is never repaired *)

Lemma mean_updated_of_nan (countOld : Z) (meanNew : float) (countNew : Z) :
  mean_updated F64.nan countOld meanNew countNew = F64.nan.
Proof.
  unfold mean_updated.
  destruct (F64.mul meanNew (F64.of_int countNew));
    destruct (F64.of_int countOld);
    destruct (F64.of_int (count_updated countOld countNew)); reflexivity.
Qed.

(** X10.  A NaN mean of a feature is never repaired: on an estimator whose
    mean of feature [j] is NaN, after every call that returns the mean of
    the feature is still NaN, whatever the batch holds. *)
Lemma nan_mean_persists (X Xc : array2) (w w' : world) (lm : farr) (d j : nat) :
  tracking (self w) = true ->
  check_array (copy (self w)) X = Ok Xc ->
  shape1 Xc = d -> (j < d)%nat ->
  prior_mean (self w) = Some (Some lm) -> fshape d lm ->
  fget lm j = F64.nan ->
  length (prior_counts (self w) d) = d ->
  length (nanmean (length (calls w)) Xc (epsilon_0 (self w)) (range (self w))) = d ->
  partial_fit X w = (Ok tt, w') ->
  exists um, mean_ (self w') = Some (Some (FArray um)) /\
             nth j um F64.zero = F64.nan.
Proof.
  intros Ht HX Hd Hj Hpm Hlm Hnan Hlc Hnm H.
  destruct (partial_fit_inv_tracking X w w' H Ht)
    as (Xc' & m & v & um & uv & uc & s1 & w2 & n0 & ns' &
        HX' & Hpm' & _ & HI & _ & _ & Hs & _).
  rewrite HX in HX'. inversion HX'; subst Xc'. rewrite Hd in HI.
  rewrite Hpm in Hpm'. inversion Hpm'; subst m.
  apply (incremental_mean_inv _ _ _ _ _ _ _ _ d) in HI; auto.
  destruct HI as [-> _].
  eexists. rewrite Hs. split; [reflexivity|].
  rewrite tabulate_nth by exact Hj.
  rewrite Hnan. apply mean_updated_of_nan.
Qed.

(** ** [partial_fit] returns on well-shaped batches *)

Lemma tabulate_cons {A : Type} (d : nat) (f : nat -> A) :
  tabulate (S d) f = f 0%nat :: tabulate d (fun j => f (S j)).
Proof.
  unfold tabulate. cbn [seq map]. f_equal.
  rewrite <- seq_shift. now rewrite map_map.
Qed.

Lemma partial_fit_returns (X Xc : array2) (w : world) (d : nat) :
  tracking (self w) = true ->
  check_array (copy (self w)) X = Ok Xc ->
  shape1 Xc = d -> (0 < d)%nat ->
  ready d (self w) ->
  length (nanmean (length (calls w)) Xc (epsilon_0 (self w)) (range (self w))) = d ->
  length (nanvar (S (length (calls w))) Xc (epsilon_0 (self w)) (range (self w))) = d ->
  exists w', partial_fit X w = (Ok tt, w') /\ ready d (self w').
Proof.
  destruct w as [s c]. destruct s as [eps rng cp wm ws n m v sc].
  unfold tracking, ready, prior_counts, prior_mean, prior_var, epsilon_0.
  cbn [self calls with_mean with_std copy range epsilon n_samples_seen_ mean_ var_ scale_].
  intros Ht HX Hd Hpos (Hlc & (lm & Hm & Hlm) & Hv) Hnm Hnv.
  unfold partial_fit, bind, get_self, lift, update, getattr, ret, raise.
  cbn [self calls with_mean with_std copy range epsilon n_samples_seen_ mean_ var_ scale_].
  rewrite HX, Hd.
  destruct d as [|d]; [inversion Hpos|].
  destruct n as [[n|ns]|]; destruct sc as [sc|]; destruct ws as [[|]|];
    destruct wm; try discriminate Ht;
    cbn [truthy] in Hv; try subst m; try (injection Hm as Hm; subst lm);
    try (destruct v as [[v|]|]; try contradiction; try discriminate Hv);
    cbn [self calls with_mean with_std copy range epsilon n_samples_seen_
         mean_ var_ scale_ set_n_samples_seen_ set_mean_ set_var_ set_scale_
         truthy negb andb as_array].
  all: rewrite (incremental_run _ _ _ _ _ _ _ (S d))
       by (cbn [calls fshape]; auto using repeat_length).
  all: cbn [self calls with_mean with_std copy range epsilon n_samples_seen_
         mean_ var_ scale_ set_n_samples_seen_ set_mean_ set_var_ set_scale_
         truthy negb andb as_array].
  all: rewrite (tabulate_cons d (fun j => count_updated _ _)); cbn [ptp].
  all: match goal with
       | |- context [Z.eqb ?a 0] => destruct (Z.eqb a 0)
       end.
  all: cbn [self calls with_mean with_std copy range epsilon n_samples_seen_
         mean_ var_ scale_ set_n_samples_seen_ set_mean_ set_var_ set_scale_
         truthy negb andb as_array np_sqrt].
  all: eexists; split; [reflexivity|].
  all: cbn [self calls with_mean with_std copy range epsilon n_samples_seen_
         mean_ var_ scale_ set_n_samples_seen_ set_mean_ set_var_ set_scale_
         truthy length fshape].
  all: rewrite ?repeat_length, ?tabulate_length.
  all: split; [reflexivity|]; split; [|try reflexivity; apply tabulate_length].
  all: eexists; split; [reflexivity|apply tabulate_length].
Qed.

Lemma new_scaler_ready (eps : float) (rng : range_t) (cp wm : bool)
      (ws : option bool) (d : nat) :
  ready d (new_scaler eps rng cp wm ws).
Proof.
  unfold ready, prior_counts, prior_mean, prior_var. cbn.
  split; [apply repeat_length|]. split; [eexists; split; [reflexivity|exact I]|].
  destruct ws as [[|]|]; cbn; auto.
Qed.

Lemma partial_fit_keeps_config (X : array2) (w w' : world) :
  partial_fit X w = (Ok tt, w') -> same_config (self w) (self w').
Proof.
  intros H. destruct (tracking (self w)) eqn:Ht.
  - destruct (partial_fit_inv_tracking X w w' H Ht)
      as (Xc & m & v & um & uv & uc & s1 & w2 & n0 & ns' &
          _ & _ & _ & _ & _ & _ & Hs & _).
    rewrite Hs. unfold same_config, fitted. cbn. repeat split.
  - destruct (partial_fit_inv_untracked X w w' H Ht)
      as (Xc & n0 & ns' & _ & _ & _ & Hs).
    rewrite Hs. unfold same_config, fitted. cbn. repeat split.
Qed.

(** ** An estimator whose [with_std] is unset never holds a variance *)


Ltac fields H :=
  cbn [self calls with_mean with_std copy range epsilon n_samples_seen_
       mean_ var_ scale_ set_n_samples_seen_ set_mean_ set_var_ set_scale_
       truthy negb andb as_array np_sqrt ptp fst snd] in H.





(** * Further properties of the code *)

(** ** Which exceptions a merge can raise *)

Lemma broadcast2_raise {A B C : Type} (f : A -> B -> C) xs ys e :
  broadcast2 f xs ys = Raise e -> e = ValueError.
Proof.
  unfold broadcast2. destruct (Nat.eqb (length xs) (length ys)); [discriminate|].
  destruct xs as [|x [|x' xs]]; destruct ys as [|y [|y' ys]];
    intros H; inversion H; reflexivity.
Qed.

Lemma broadcast2_mismatch {A B C : Type} (f : A -> B -> C) xs ys :
  length xs <> length ys -> length xs <> 1%nat -> length ys <> 1%nat ->
  broadcast2 f xs ys = Raise ValueError.
Proof.
  intros Hne Hx Hy. unfold broadcast2.
  destruct (Nat.eqb_spec (length xs) (length ys)); [contradiction|].
  destruct xs as [|x [|x' xs]]; destruct ys as [|y [|y' ys]];
    simpl in *; try reflexivity; contradiction.
Qed.

Lemma fbinop_raise (f : float -> float -> float) (a b : farr) e :
  fbinop f a b = Raise e -> e = ValueError.
Proof.
  destruct a as [x|xs]; destruct b as [y|ys]; simpl; try discriminate.
  destruct (broadcast2 f xs ys) eqn:E; [discriminate|].
  intros H; inversion H; subst. eapply broadcast2_raise; eauto.
Qed.

Lemma fbinop_array_l (f : float -> float -> float) xs (b c : farr) :
  fbinop f (FArray xs) b = Ok c -> exists zs, c = FArray zs.
Proof.
  destruct b as [y|ys]; simpl.
  - intros H; inversion H; eauto.
  - destruct (broadcast2 f xs ys); intros H; inversion H; eauto.
Qed.

Lemma fbinop_array_r (f : float -> float -> float) (a : farr) ys (c : farr) :
  fbinop f a (FArray ys) = Ok c -> exists zs, c = FArray zs.
Proof.
  destruct a as [x|xs]; simpl.
  - intros H; inversion H; eauto.
  - destruct (broadcast2 f xs ys); intros H; inversion H; eauto.
Qed.

Lemma setitem_mask_raise xs mask ys e :
  setitem_mask (FArray xs) mask (FArray ys) = Raise e -> e = IndexError.
Proof.
  unfold setitem_mask.
  destruct (Nat.eqb (length mask) (length xs) && Nat.eqb (length mask) (length ys));
    intros H; inversion H; reflexivity.
Qed.

Ltac raised_by_ufunc H :=
  inversion H; subst; cbn [self calls]; repeat split; auto;
  intros ? He; inversion He; subst; left;
  first [eapply fbinop_raise; eassumption
        |eapply broadcast2_raise; eassumption].

Lemma incremental_outcome (X : array2) (eps : float) (rng : range_t)
      (lm lv : option farr) (lc : list Z) (w w' : world)
      (r : res (farr * option farr * list Z)) :
  _incremental_mean_and_var X eps rng lm lv lc w = (r, w') ->
  self w' = self w /\
  (exists l, calls w' = calls w ++ l /\
     (l = [] \/ l = [CallMean X eps rng] \/
      (l = [CallMean X eps rng; CallVar X eps rng] /\ lv <> None))) /\
  (forall e, r = Raise e ->
     e = ValueError \/ e = IndexError \/ (e = TypeError /\ lm = None)).
Proof.
  unfold _incremental_mean_and_var, bind, lift, ret, call_nanmean, call_nanvar.
  intros H.
  assert (Hnil : exists l, calls w = calls w ++ l /\
            (l = [] \/ l = [CallMean X eps rng] \/
             (l = [CallMean X eps rng; CallVar X eps rng] /\ lv <> None))).
  { exists []. rewrite app_nil_r. auto. }
  destruct lm as [lm|].
  2:{ inversion H; subst. repeat split; auto.
      intros e He; inversion He; auto. }
  case_res H; [|raised_by_ufunc H].
  assert (Hone : forall c, exists l, c ++ [CallMean X eps rng] = c ++ l /\
            (l = [] \/ l = [CallMean X eps rng] \/
             (l = [CallMean X eps rng; CallVar X eps rng] /\ lv <> None))).
  { intros c. exists [CallMean X eps rng]. auto. }
  do 4 (case_res H; [|raised_by_ufunc H]).
  destruct lv as [v|].
  2:{ inversion H; subst; cbn [self calls]; repeat split; auto.
      intros e He; inversion He. }
  assert (Htwo : forall c, exists l,
            (c ++ [CallMean X eps rng]) ++ [CallVar X eps rng] = c ++ l /\
            (l = [] \/ l = [CallMean X eps rng] \/
             (l = [CallMean X eps rng; CallVar X eps rng] /\ Some v <> None))).
  { intros c. exists [CallMean X eps rng; CallVar X eps rng].
    rewrite <- app_assoc. split; auto. right. right. split; auto. discriminate. }
  do 9 (case_res H; [|raised_by_ufunc H]).
  match goal with
  | E : fbinop F64.mul (FArray _) (to_float (count_not_nan X)) = Ok ?a |- _ =>
      match type of H with
      | context [setitem_mask _ _ a] =>
          destruct (fbinop_array_l _ _ _ _ E) as [nu ->]
      end
  end.
  match goal with
  | E : fbinop F64.add ?a5 (FArray nu) = Ok ?a7 |- _ =>
      destruct (fbinop_array_r _ _ _ _ E) as [t1 ->]
  end.
  match goal with
  | E : fbinop F64.add (FArray t1) _ = Ok ?a12 |- _ =>
      destruct (fbinop_array_l _ _ _ _ E) as [uu ->]
  end.
  case_res H.
  2:{ inversion H; subst; cbn [self calls]; repeat split; auto.
      intros ? He; inversion He; subst. right; left.
      eapply setitem_mask_raise; eassumption. }
  case_res H; [|raised_by_ufunc H].
  inversion H; subst; cbn [self calls]; repeat split; auto.
  intros e He; inversion He.
Qed.

(** ** Every outcome of [partial_fit] *)

Lemma iadd_inplace_raise (ns vs : list Z) e :
  iadd_inplace ns vs = Raise e -> e = ValueError.
Proof.
  unfold iadd_inplace. destruct (Nat.eqb (length ns) (length vs)); [discriminate|].
  destruct vs as [|v [|v' vs]]; intros H; inversion H; reflexivity.
Qed.

Ltac unfold_fit :=
  unfold partial_fit, bind, get_self, lift, update, getattr, ret, raise;
  cbn [self calls with_mean with_std copy range epsilon n_samples_seen_
       mean_ var_ scale_].

Lemma partial_fit_outcome (X : array2) (w w' : world) (r : res unit) :
  partial_fit X w = (r, w') ->
  same_config (self w) (self w') /\
  (exists l, calls w' = calls w ++ l /\
     (l = [] \/
      exists Xc, check_array (copy (self w)) X = Ok Xc /\
        (l = [CallMean Xc (epsilon_0 (self w)) (range (self w))] \/
         l = [CallMean Xc (epsilon_0 (self w)) (range (self w));
              CallVar Xc (epsilon_0 (self w)) (range (self w))])) /\
     (tracking (self w) = false -> l = [])) /\
  (consistent (self w) ->
   consistent (self w') /\
   forall e, r = Raise e ->
     check_array (copy (self w)) X = Raise e \/ e = ValueError \/ e = IndexError).
Proof.
  destruct w as [s c]. destruct s as [eps rng cp wm ws n m v sc].
  unfold same_config, consistent, tracking, epsilon_0. unfold_fit.
  intros H.
  assert (Hnil : forall (P : list call -> Prop) (Q : list call -> Prop),
             Q [] ->
             exists l : list call, c = c ++ l /\ (l = [] \/ P l) /\ Q l).
  { intros P Q HQ. exists []. rewrite app_nil_r. auto. }
  destruct (check_array cp X) as [Xc|e0] eqn:EX.
  2:{ inversion H; subst; cbn. split; [repeat split|]. split.
      - apply Hnil. auto.
      - intros Hc. split; [exact Hc|]. intros e He; inversion He; auto. }
  destruct n as [[n|ns]|]; destruct sc as [sc|]; destruct ws as [[|]|];
    destruct wm; fields H.
  all: try (destruct m as [m|]; fields H).
  all: try (destruct v as [v|]; fields H).
  all: try match type of H with
       | context [_incremental_mean_and_var ?a1 ?a2 ?a3 ?a4 ?a5 ?a6 ?a7] =>
           destruct (_incremental_mean_and_var a1 a2 a3 a4 a5 a6 a7)
             as [[[[um uv] uc]|e] w2] eqn:EI;
           [destruct (incremental_inv _ _ _ _ _ _ _ _ _ _ _ EI) as (_ & Hcm & Hv & _)|];
           destruct (incremental_outcome _ _ _ _ _ _ _ _ _ EI)
             as (Hs & (l & Hl & Hshape) & Herr);
           cbn [self calls] in Hs, Hl
       end.
  all: try match type of H with
       | context [iadd_inplace ?a1 ?a2] =>
           destruct (iadd_inplace a1 a2) as [uc|e] eqn:EA
       end.
  all: fields H.
  all: try (rewrite Hs in H; fields H).
  all: try (destruct uc as [|n0 ns']; fields H).
  all: try match type of H with
       | context [Z.eqb ?a1 0] => destruct (Z.eqb a1 0); fields H
       end.
  all: try (destruct uv as [uv|]; fields H).
  all: inversion H; subst r w'; clear H;
    cbn [self calls with_mean with_std copy range epsilon n_samples_seen_
         mean_ var_ scale_ set_n_samples_seen_ set_mean_ set_var_ set_scale_
         truthy orb];
    rewrite ?Hs;
    cbn [self calls with_mean with_std copy range epsilon n_samples_seen_
         mean_ var_ scale_ set_n_samples_seen_ set_mean_ set_var_ set_scale_
         truthy orb].
  all: (split; [repeat split|]).
  all: split;
    [first
       [rewrite Hl; exists l; split; [reflexivity|];
        split; [|intros Hf; discriminate Hf];
        destruct Hshape as [->|[->|[-> _]]]; [now left|right..];
        exists Xc; split; auto
       |apply Hnil; auto]
    |].
  all: intros Hc.
  all: try (destruct (Hc ltac:(discriminate) eq_refl) as ((m0 & Hm0) & Hvv);
            try (destruct Hvv as (v0 & Hvv));
            inversion Hm0; inversion Hvv; subst).
  all: try (exfalso; destruct Hv as [Hv1 Hv2];
            first [discriminate (Hv1 eq_refl)|discriminate (Hv2 eq_refl)]).
  all: split;
    [intros Hne Ht;
     first [discriminate Ht
           |exfalso; apply Hne; reflexivity
           |split;
            [eexists; reflexivity
            |first [eexists; reflexivity
                   |reflexivity
                   |apply f_equal, Hv; reflexivity]]]
    |intros e1 He; inversion He; subst; auto;
     try (apply iadd_inplace_raise in EA; subst; auto);
     try (destruct (Herr _ eq_refl) as [->|[->|[-> Hm]]]; auto; discriminate Hm)].
Qed.

Lemma surjective_run {A : Type} (c : M A) (w : world) :
  c w = (fst (c w), snd (c w)).
Proof. now destruct (c w). Qed.

(** X1.  Whatever its outcome, a [partial_fit] call asks the statistic
    sources for at most one mean and at most one variance, the mean first
    and the variance only after it, both on the validated batch with the
    budget of line 156 and the range of the estimator. *)
Theorem partial_fit_calls_sources_once (X : array2) (w : world) :
  exists l,
    calls (snd (partial_fit X w)) = calls w ++ l /\
    (l = [] \/
     exists Xc, check_array (copy (self w)) X = Ok Xc /\
       (l = [CallMean Xc (epsilon_0 (self w)) (range (self w))] \/
        l = [CallMean Xc (epsilon_0 (self w)) (range (self w));
             CallVar Xc (epsilon_0 (self w)) (range (self w))])).
Proof.
  destruct (partial_fit_outcome X w _ _ (surjective_run (partial_fit X) w))
    as (_ & (l & Hl & Hshape & _) & _).
  exists l. auto.
Qed.

(** X2.  With [with_mean] false and [with_std] false or unset, a
    [partial_fit] call never calls a statistic source, whether it returns
    or raises; when it returns, [mean_], [var_] and [scale_] are [None]. *)
Theorem untracked_fit_spends_no_budget (X : array2) (w : world) :
  tracking (self w) = false ->
  calls (snd (partial_fit X w)) = calls w /\
  (fst (partial_fit X w) = Ok tt ->
   mean_ (self (snd (partial_fit X w))) = Some None /\
   var_ (self (snd (partial_fit X w))) = Some None /\
   scale_ (self (snd (partial_fit X w))) = Some None).
Proof.
  intros Ht. split.
  - destruct (partial_fit_outcome X w _ _ (surjective_run (partial_fit X) w))
      as (_ & (l & Hl & _ & Hnone) & _).
    rewrite Hl, (Hnone Ht). apply app_nil_r.
  - intros Hok.
    assert (H : partial_fit X w = (Ok tt, snd (partial_fit X w))).
    { rewrite <- Hok. apply surjective_run. }
    destruct (partial_fit_inv_untracked X w _ H Ht)
      as (Xc & n0 & ns' & _ & _ & _ & Hs).
    rewrite Hs. repeat split.
Qed.

Lemma reachable_consistent (eps : float) (rng : range_t) (cp wm : bool)
      (ws : option bool) (s : scaler) :
  reachable (new_scaler eps rng cp wm ws) s ->
  same_config (new_scaler eps rng cp wm ws) s /\ consistent s.
Proof.
  induction 1 as [|s X log r w' Hreach [Hcfg Hcons] Hfit].
  - split; [unfold same_config; repeat split|].
    intros Hne. cbn in Hne. contradiction.
  - destruct (partial_fit_outcome X (mkWorld s log) _ _ Hfit)
      as (Hcfg' & _ & Hc).
    cbn [self] in *. split; [|now apply Hc].
    unfold same_config in *.
    destruct Hcfg as (H1 & H2 & H3 & H4 & H5).
    destruct Hcfg' as (H1' & H2' & H3' & H4' & H5').
    repeat split; congruence.
Qed.

(** X3.  On an estimator that went through any number of [partial_fit]
    calls since its construction, a call that raises either passes on the
    exception of the validation of the batch, or raises [ValueError] or
    [IndexError]: the attributes created on the first pass are never found
    missing or [None] where a value is needed. *)
Theorem constructed_estimator_exceptions (eps : float) (rng : range_t)
        (cp wm : bool) (ws : option bool) (s : scaler) (X : array2)
        (log : list call) (e : exn) (w' : world) :
  reachable (new_scaler eps rng cp wm ws) s ->
  partial_fit X (mkWorld s log) = (Raise e, w') ->
  check_array cp X = Raise e \/ e = ValueError \/ e = IndexError.
Proof.
  intros Hreach Hfit.
  destruct (reachable_consistent _ _ _ _ _ _ Hreach) as ((_ & _ & Hcp & _) & Hcons).
  destruct (partial_fit_outcome X (mkWorld s log) _ _ Hfit) as (_ & _ & Hc).
  destruct (Hc Hcons) as (_ & Herr). cbn in Hcp, Herr. rewrite Hcp in Herr.
  now apply Herr.
Qed.

(** ** A batch with another number of features *)

Lemma broadcast2_same_length {A B C : Type} (f : A -> B -> C) xs ys :
  length xs = length ys -> broadcast2 f xs ys = Ok (zip_with f xs ys).
Proof. intros H. unfold broadcast2. now rewrite H, Nat.eqb_refl. Qed.

(** X4.  An estimator fitted on [d] features whose count is a scalar, given
    a batch with [d'] features ([d], [d'] different and neither 1), raises
    [ValueError] before any statistic source is called; its mean, variance
    and scale are untouched, but its scalar count has already been replaced
    by a vector of [d'] copies. *)
Theorem feature_mismatch_with_scalar_count (X Xc : array2) (w : world)
        (xs : list float) (v sc : option farr) (n : Z) (d' : nat) :
  tracking (self w) = true ->
  check_array (copy (self w)) X = Ok Xc ->
  shape1 Xc = d' ->
  scale_ (self w) = Some sc ->
  mean_ (self w) = Some (Some (FArray xs)) ->
  var_ (self w) = Some v ->
  n_samples_seen_ (self w) = Some (IScalar n) ->
  length xs <> d' -> length xs <> 1%nat -> d' <> 1%nat ->
  fst (partial_fit X w) = Raise ValueError /\
  calls (snd (partial_fit X w)) = calls w /\
  self (snd (partial_fit X w))
  = set_n_samples_seen_ (IArray (repeat n d')) (self w).
Proof.
  destruct w as [s c]. destruct s as [eps rng cp wm ws n0 m v0 sc0].
  unfold tracking. cbn [self calls with_mean with_std copy range epsilon
                        n_samples_seen_ mean_ var_ scale_].
  intros Ht HX Hd -> -> -> -> Hne H1 H1'.
  unfold_fit. rewrite HX, Hd.
  cbn [self calls with_mean with_std copy range epsilon n_samples_seen_
       mean_ var_ scale_ set_n_samples_seen_ set_mean_ set_var_ set_scale_
       as_array].
  assert (Hcond : negb wm && negb (truthy ws) = false).
  { destruct wm; [reflexivity|]. cbn in Ht. now rewrite Ht. }
  rewrite Hcond.
  cbn [self calls with_mean with_std copy range epsilon n_samples_seen_
       mean_ var_ scale_ set_n_samples_seen_ set_mean_ set_var_ set_scale_
       as_array].
  unfold _incremental_mean_and_var, bind, lift. cbn [fbinop to_float].
  rewrite broadcast2_mismatch
    by (rewrite ?length_map, ?repeat_length; assumption).
  cbn. repeat split.
Qed.

(** X5.  An estimator fitted on [d] features whose counts are a vector,
    given a batch with [d'] features ([d], [d'] different and neither 1),
    raises [ValueError] only after the privatized mean of the batch has
    been computed: the estimator is unchanged, but the call has spent a
    share of the budget. *)
Theorem feature_mismatch_with_vector_count (X Xc : array2) (w : world)
        (xs : list float) (v sc : option farr) (ns : list Z) (d' : nat) :
  tracking (self w) = true ->
  check_array (copy (self w)) X = Ok Xc ->
  shape1 Xc = d' ->
  scale_ (self w) = Some sc ->
  mean_ (self w) = Some (Some (FArray xs)) ->
  var_ (self w) = Some v ->
  n_samples_seen_ (self w) = Some (IArray ns) ->
  length ns = length xs ->
  length (nanmean (length (calls w)) Xc (epsilon_0 (self w)) (range (self w))) = d' ->
  length xs <> d' -> length xs <> 1%nat -> d' <> 1%nat ->
  fst (partial_fit X w) = Raise ValueError /\
  calls (snd (partial_fit X w))
  = calls w ++ [CallMean Xc (epsilon_0 (self w)) (range (self w))] /\
  self (snd (partial_fit X w)) = self w.
Proof.
  destruct w as [s c]. destruct s as [eps rng cp wm ws n0 m v0 sc0].
  unfold tracking, epsilon_0. cbn [self calls with_mean with_std copy range epsilon
                        n_samples_seen_ mean_ var_ scale_].
  intros Ht HX Hd -> -> -> -> Hns Hnm Hne H1 H1'.
  unfold_fit. rewrite HX.
  cbn [self calls with_mean with_std copy range epsilon n_samples_seen_
       mean_ var_ scale_ set_n_samples_seen_ set_mean_ set_var_ set_scale_
       as_array].
  assert (Hcond : negb wm && negb (truthy ws) = false).
  { destruct wm; [reflexivity|]. cbn in Ht. now rewrite Ht. }
  rewrite Hcond.
  cbn [self calls with_mean with_std copy range epsilon n_samples_seen_
       mean_ var_ scale_ set_n_samples_seen_ set_mean_ set_var_ set_scale_
       as_array].
  unfold _incremental_mean_and_var, bind, lift, call_nanmean.
  cbn [fbinop to_float self calls].
  rewrite (broadcast2_same_length F64.mul xs) by (now rewrite length_map).
  rewrite (broadcast2_same_length F64.mul
             (nanmean (length c) Xc _ rng))
    by (rewrite length_map; unfold count_not_nan;
        rewrite tabulate_length; congruence).
  rewrite (broadcast2_mismatch I64.add ns)
    by (unfold count_not_nan; rewrite ?tabulate_length; congruence).
  cbn. repeat split.
Qed.

(** ** Batches of the right shape are accepted *)

Lemma untracked_fit_returns (X Xc : array2) (w : world) (d : nat) :
  tracking (self w) = false ->
  check_array (copy (self w)) X = Ok Xc ->
  shape1 Xc = d -> (0 < d)%nat ->
  length (prior_counts (self w) d) = d ->
  exists w', partial_fit X w = (Ok tt, w') /\
             length (prior_counts (self w') d) = d.
Proof.
  destruct w as [s c]. destruct s as [eps rng cp wm ws n m v sc].
  unfold tracking, prior_counts.
  cbn [self calls with_mean with_std copy range epsilon n_samples_seen_ mean_ var_ scale_].
  intros Ht HX Hd Hpos Hlc.
  unfold_fit. rewrite HX, Hd.
  destruct d as [|d]; [inversion Hpos|].
  assert (Hseen : exists g, map (fun k => I64.sub (Z.of_nat (shape0 Xc)) k) (count_nan Xc)
                  = tabulate (S d) g).
  { unfold count_nan. rewrite Hd, tabulate_map. eauto. }
  destruct Hseen as [g Hg].
  destruct n as [[n|ns]|]; destruct sc as [sc|]; destruct ws as [[|]|];
    destruct wm; try discriminate Ht;
    cbn [self calls with_mean with_std copy range epsilon n_samples_seen_
         mean_ var_ scale_ set_n_samples_seen_ set_mean_ set_var_ set_scale_
         truthy negb andb as_array].
  all: rewrite Hg; unfold iadd_inplace;
    rewrite tabulate_length, ?repeat_length, ?Hlc, Nat.eqb_refl;
    cbn [self calls with_mean with_std copy range epsilon n_samples_seen_
         mean_ var_ scale_ set_n_samples_seen_ set_mean_ set_var_ set_scale_
         truthy negb andb as_array].
  all: rewrite tabulate_cons.
  all: match goal with
       | |- context [zip_with I64.add ?l (_ :: _)] =>
           let E := fresh "E" in
           destruct l as [|k l'] eqn:E; [discriminate|]; cbn [zip_with ptp]
       end.
  all: match goal with
       | |- context [Z.eqb ?a 0] => destruct (Z.eqb a 0)
       end;
    cbn [self calls with_mean with_std copy range epsilon n_samples_seen_
         mean_ var_ scale_ set_n_samples_seen_ set_mean_ set_var_ set_scale_
         truthy negb andb as_array];
    eexists; split; try reflexivity;
    cbn [self calls n_samples_seen_ set_n_samples_seen_ set_mean_ set_var_
         set_scale_];
    first [apply repeat_length
          |cbn [length] in *; f_equal; injection Hlc as Hlc;
           rewrite zip_with_length; rewrite ?tabulate_length; assumption].
Qed.

Lemma new_scaler_accepts (eps : float) (rng : range_t) (cp wm : bool)
      (ws : option bool) (d : nat) :
  accepts d (new_scaler eps rng cp wm ws).
Proof.
  unfold accepts. destruct (tracking (new_scaler eps rng cp wm ws)).
  - apply new_scaler_ready.
  - apply repeat_length.
Qed.

(** X6.  An estimator that is fresh, or was left by calls on batches of
    [d] features, returns on every validated batch of [d >= 1] features
    for which the statistic sources answer with [d] entries, and can take
    such a batch again afterwards. *)
Theorem well_shaped_batch_is_accepted (X Xc : array2) (w : world) (d : nat) :
  check_array (copy (self w)) X = Ok Xc ->
  shape1 Xc = d -> (0 < d)%nat ->
  accepts d (self w) ->
  length (nanmean (length (calls w)) Xc (epsilon_0 (self w)) (range (self w))) = d ->
  length (nanvar (S (length (calls w))) Xc (epsilon_0 (self w)) (range (self w))) = d ->
  exists w', partial_fit X w = (Ok tt, w') /\ accepts d (self w').
Proof.
  intros HX Hd Hpos Hacc Hnm Hnv. unfold accepts in *.
  assert (Hsame : forall w', partial_fit X w = (Ok tt, w') ->
                             tracking (self w') = tracking (self w)).
  { intros w' H. destruct (partial_fit_keeps_config X w w' H)
      as (_ & _ & _ & Hm & Hs). unfold tracking. now rewrite Hm, Hs. }
  destruct (tracking (self w)) eqn:Ht.
  - destruct (partial_fit_returns X Xc w d Ht HX Hd Hpos Hacc Hnm Hnv)
      as (w' & H & Hr).
    exists w'. split; [exact H|]. now rewrite (Hsame w' H).
  - destruct (untracked_fit_returns X Xc w d Ht HX Hd Hpos Hacc)
      as (w' & H & Hr).
    exists w'. split; [exact H|]. now rewrite (Hsame w' H).
Qed.

(** ** One-entry aggregates are stretched *)

Lemma fbinop_singleton (f : float -> float -> float) (x : float) (ys : list float) :
  fbinop f (FArray [x]) (FArray ys) = fbinop f (FScalar x) (FArray ys).
Proof.
  cbn [fbinop]. unfold broadcast2.
  destruct ys as [|y [|y' ys]]; reflexivity.
Qed.

Lemma incremental_singleton (X : array2) (eps : float) (rng : range_t)
      (m : float) (lv : option float) (lc : list Z) (w : world) :
  _incremental_mean_and_var X eps rng (Some (FArray [m]))
    (option_map (fun x => FArray [x]) lv) lc w
  = _incremental_mean_and_var X eps rng (Some (FScalar m))
      (option_map FScalar lv) lc w.
Proof.
  unfold _incremental_mean_and_var, bind, lift, to_float.
  rewrite fbinop_singleton.
  destruct lv as [x|]; [|reflexivity].
  cbn [option_map]. rewrite (fbinop_singleton F64.mul x). reflexivity.
Qed.

(** X7.  An estimator fitted on a single feature does not reject a batch
    with more features: its one-entry mean and variance are stretched over
    the [d] features of the batch, the call returns, and the mean has [d]
    entries afterwards. *)
Theorem one_feature_estimator_takes_wider_batch (X Xc : array2) (w : world)
        (m : float) (lv : option float) (sc : option farr) (n : Z) (d : nat) :
  tracking (self w) = true ->
  check_array (copy (self w)) X = Ok Xc ->
  shape1 Xc = d -> (0 < d)%nat ->
  scale_ (self w) = Some sc ->
  mean_ (self w) = Some (Some (FArray [m])) ->
  var_ (self w) = Some (option_map (fun x => FArray [x]) lv) ->
  (truthy (with_std (self w)) = true -> lv <> None) ->
  n_samples_seen_ (self w) = Some (IScalar n) ->
  length (nanmean (length (calls w)) Xc (epsilon_0 (self w)) (range (self w))) = d ->
  length (nanvar (S (length (calls w))) Xc (epsilon_0 (self w)) (range (self w))) = d ->
  exists w' um,
    partial_fit X w = (Ok tt, w') /\
    mean_ (self w') = Some (Some (FArray um)) /\
    length um = d.
Proof.
  destruct w as [s c]. destruct s as [eps rng cp wm ws n0 m0 v0 sc0].
  unfold tracking, epsilon_0.
  cbn [self calls with_mean with_std copy range epsilon n_samples_seen_
       mean_ var_ scale_].
  intros Ht HX Hd Hpos -> -> -> Hlv -> Hnm Hnv.
  unfold_fit. rewrite HX, Hd.
  cbn [self calls with_mean with_std copy range epsilon n_samples_seen_
       mean_ var_ scale_ set_n_samples_seen_ set_mean_ set_var_ set_scale_
       as_array].
  assert (Hcond : negb wm && negb (truthy ws) = false).
  { destruct wm; [reflexivity|]. cbn in Ht. now rewrite Ht. }
  rewrite Hcond.
  cbn [self calls with_mean with_std copy range epsilon n_samples_seen_
       mean_ var_ scale_ set_n_samples_seen_ set_mean_ set_var_ set_scale_
       as_array].
  rewrite incremental_singleton.
  rewrite (incremental_run _ _ _ _ _ _ _ d);
    [|assumption|exact I|apply repeat_length|assumption
     |destruct lv; cbn; auto].
  destruct d as [|d]; [inversion Hpos|].
  cbn [self calls with_mean with_std copy range epsilon n_samples_seen_
       mean_ var_ scale_ set_n_samples_seen_ set_mean_ set_var_ set_scale_
       as_array].
  rewrite (tabulate_cons d (fun j => count_updated _ _)); cbn [ptp].
  match goal with
  | |- context [Z.eqb ?a 0] => destruct (Z.eqb a 0)
  end;
    cbn [self calls with_mean with_std copy range epsilon n_samples_seen_
         mean_ var_ scale_ set_n_samples_seen_ set_mean_ set_var_ set_scale_
         as_array];
    (destruct (truthy ws) eqn:Hws;
     [destruct lv as [x|]; [|exfalso; now apply Hlv]|]);
    cbn [option_map np_sqrt self calls with_mean with_std copy range epsilon
         n_samples_seen_ mean_ var_ scale_ set_n_samples_seen_ set_mean_
         set_var_ set_scale_];
    do 2 eexists; (split; [reflexivity|]);
    cbn [self mean_ set_scale_ set_n_samples_seen_ set_var_ set_mean_];
    (split; [reflexivity|apply tabulate_length]).
Qed.

(** ** The entries of the scale *)

Lemma scale_of_nonzero (x : float) : F64.eqb (scale_of x) F64.zero = false.
Proof.
  unfold scale_of. cbv zeta.
  destruct (F64.eqb (F64.sqrt x) F64.zero) eqn:E; [reflexivity|exact E].
Qed.

Lemma scale_of_not_a_number (x : float) :
  negative x = true \/ F64.isnan x = true -> scale_of x = F64.nan.
Proof.
  destruct x as [s|[|]| |[|] m e]; cbn; intros [H|H];
    try discriminate H; reflexivity.
Qed.

Lemma entries_fmap (f : float -> float) (a : farr) :
  entries (fmap f a) = map f (entries a).
Proof. destruct a; reflexivity. Qed.

(** X8.  After a [partial_fit] call that returns with [with_std = True],
    [scale_] has one entry per entry of [var_]; no entry of [scale_] is
    zero, and an entry is NaN wherever the variance is negative or NaN. *)
Theorem scale_entries (X : array2) (w w' : world) :
  partial_fit X w = (Ok tt, w') ->
  with_std (self w) = Some true ->
  exists v sc,
    var_ (self w') = Some (Some v) /\
    scale_ (self w') = Some (Some sc) /\
    length (entries sc) = length (entries v) /\
    forall j, (j < length (entries v))%nat ->
      F64.eqb (nth j (entries sc) F64.zero) F64.zero = false /\
      (negative (nth j (entries v) F64.zero) = true \/
       F64.isnan (nth j (entries v) F64.zero) = true ->
       nth j (entries sc) F64.zero = F64.nan).
Proof.
  intros H Hstd.
  destruct (partial_fit_inv_tracking X w w' H (tracking_with_std _ Hstd))
    as (Xc & m & v & um & uv & uc & s1 & w2 & n0 & ns' &
        _ & _ & _ & _ & _ & _ & Hs & Huv).
  destruct uv as [uv|]; [|exfalso; apply Huv; [now rewrite Hstd|reflexivity]].
  exists uv, (fmap scale_of uv).
  rewrite Hs, Hstd. cbn [fitted var_ scale_ truthy option_map].
  rewrite handle_zeros_sqrt, entries_fmap, length_map.
  repeat split.
  - rewrite (nth_indep _ F64.zero (scale_of F64.zero)) by now rewrite length_map.
    rewrite map_nth. apply scale_of_nonzero.
  - rewrite (nth_indep (map _ _) F64.zero (scale_of F64.zero))
      by now rewrite length_map.
    rewrite map_nth. apply scale_of_not_a_number.
Qed.

(** ** Batches without missing entries *)

Lemma filter_all {A : Type} (p : A -> bool) (l : list A) :
  Forall (fun x => p x = true) l -> filter p l = l.
Proof.
  induction 1 as [|x l Hx _ IH]; simpl; [reflexivity|].
  now rewrite Hx, IH.
Qed.

Lemma observed_complete (X : array2) (j : nat) :
  complete X -> (j < shape1 X)%nat -> observed X j = Z.of_nat (shape0 X).
Proof.
  intros Hc Hj. unfold observed, count_true.
  rewrite filter_all; [now rewrite column_length|].
  unfold column. apply Forall_forall. intros x Hx.
  apply in_map_iff in Hx. destruct Hx as (r & <- & Hr).
  unfold complete in Hc. rewrite Forall_forall in Hc.
  destruct (Hc r Hr) as [Hlen Hnan]. rewrite Forall_forall in Hnan.
  rewrite Hnan; [reflexivity|]. apply nth_In. now rewrite Hlen.
Qed.

Lemma all_equal_constant (d : nat) (k : Z) :
  all_equal (tabulate d (fun _ => k)) = true.
Proof.
  destruct d as [|d]; [reflexivity|].
  rewrite tabulate_cons. cbn [all_equal]. apply forallb_forall.
  intros x Hx. unfold tabulate in Hx. apply in_map_iff in Hx.
  destruct Hx as (? & <- & _). apply Z.eqb_refl.
Qed.

Lemma fit_counts (X Xc : array2) (w w' : world) (d : nat) :
  partial_fit X w = (Ok tt, w') ->
  check_array (copy (self w)) X = Ok Xc ->
  shape1 Xc = d ->
  length (prior_counts (self w) d) = d ->
  (tracking (self w) = false -> Z.of_nat (shape0 Xc) < I64.half) ->
  n_samples_seen_ (self w')
  = Some (collapse (tabulate d (fun j =>
            I64.add (nth j (prior_counts (self w) d) 0) (observed Xc j)))) /\
  (0 < d)%nat.
Proof.
  intros H HX Hd Hlen Hrows.
  destruct (tracking (self w)) eqn:Ht.
  - destruct (partial_fit_inv_tracking X w w' H Ht)
      as (Xc' & m & v & um & uv & uc & s1 & w2 & n0 & ns' &
          HX' & _ & _ & HI & Huc & _ & Hs & _).
    rewrite HX in HX'. inversion HX'; subst Xc'. rewrite Hd in HI.
    destruct (incremental_inv _ _ _ _ _ _ _ _ _ _ _ HI) as (_ & _ & _ & Hb).
    assert (Hr : Forall I64.in_range uc).
    { eapply broadcast2_Forall; [|exact Hb]. intros; apply wrap_in_range. }
    apply (merged_counts_tracked _ _ _ d (observed Xc) Hlen) in Hb;
      [|unfold count_not_nan; now rewrite Hd].
    split.
    + rewrite Hs. cbn [fitted n_samples_seen_]. f_equal.
      rewrite <- Hb, Huc. apply collapse_ptp. now rewrite <- Huc.
    + destruct d; [rewrite Huc in Hb; discriminate Hb|lia].
  - destruct (partial_fit_inv_untracked X w w' H Ht)
      as (Xc' & n0 & ns' & HX' & Ha & _ & Hs).
    rewrite HX in HX'. inversion HX'; subst Xc'. rewrite Hd in Ha.
    pose proof (iadd_inplace_Forall _ _ _ Ha) as Hr.
    apply (merged_counts_untracked _ _ _ d Hlen Hd (Hrows eq_refl)) in Ha.
    split.
    + rewrite Hs. cbn [fitted n_samples_seen_]. f_equal.
      rewrite <- Ha. now apply collapse_ptp.
    + destruct d; [discriminate Ha|lia].
Qed.

(** X9.  Fed with batches without missing entries, the estimator keeps a
    scalar count: after a call that returns on such a batch, a scalar (or
    not yet set) [n_samples_seen_] is the scalar increased, in int64, by
    the number of rows of the batch. *)
Theorem complete_batch_keeps_scalar_count (X Xc : array2) (w w' : world) (n : Z) :
  partial_fit X w = (Ok tt, w') ->
  check_array (copy (self w)) X = Ok Xc ->
  complete Xc ->
  Z.of_nat (shape0 Xc) < I64.half ->
  prior_counts (self w) (shape1 Xc) = repeat n (shape1 Xc) ->
  n_samples_seen_ (self w') = Some (IScalar (I64.add n (Z.of_nat (shape0 Xc)))).
Proof.
  intros H HX Hc Hrows Hprior.
  destruct (fit_counts X Xc w w' (shape1 Xc) H HX eq_refl) as [Hn Hpos].
  - rewrite Hprior. apply repeat_length.
  - intros _. exact Hrows.
  - rewrite Hn. f_equal.
    rewrite (tabulate_ext _ _ (fun _ => I64.add n (Z.of_nat (shape0 Xc)))).
    + unfold collapse. rewrite all_equal_constant.
      destruct (shape1 Xc); [inversion Hpos|]. now rewrite tabulate_cons.
    + intros j Hj. rewrite Hprior, observed_complete by assumption.
      rewrite (nth_indep _ 0 n) by now rewrite repeat_length.
      now rewrite nth_repeat.
Qed.

(** ** More on what a merge returns *)

(** X11.  A merge that returns gives back a variance exactly when it was
    given one: with [last_variance = None] it calls only the privatized
    mean, otherwise the mean and then the variance, each once; it never
    touches the estimator. *)
Theorem merge_variance_iff_given (X : array2) (eps : float) (rng : range_t)
        (lm lv : option farr) (lc : list Z) (w w' : world)
        (um : farr) (uv : option farr) (uc : list Z) :
  _incremental_mean_and_var X eps rng lm lv lc w = (Ok (um, uv, uc), w') ->
  (uv = None <-> lv = None) /\
  calls w' = calls w ++
    CallMean X eps rng ::
    match lv with None => [] | Some _ => [CallVar X eps rng] end /\
  self w' = self w.
Proof.
  intros H.
  destruct (incremental_inv _ _ _ _ _ _ _ _ _ _ _ H) as (Hs & Hc & Hv & _).
  split; [now symmetry|]. split; [exact Hc|exact Hs].
Qed.

Lemma var_updated_of_nan (meanOld : float) (countOld : Z)
      (meanNew varNew : float) (countNew : Z) :
  countOld <> 0 ->
  var_updated meanOld F64.nan countOld meanNew varNew countNew = F64.nan.
Proof.
  intros Hne. unfold var_updated, unnorm_var_updated, unnorm_var_chan.
  destruct (Z.eqb_spec countOld 0) as [|_]; [contradiction|].
  assert (Hmul : forall x, F64.mul F64.nan x = F64.nan) by (intros []; reflexivity).
  assert (Hadd : forall x, F64.add F64.nan x = F64.nan) by (intros []; reflexivity).
  assert (Hdiv : forall x, F64.div F64.nan x = F64.nan) by (intros []; reflexivity).
  now rewrite Hmul, !Hadd, Hdiv.
Qed.

(** X12.  A NaN variance of a feature is never repaired once the feature
    has a non-zero count: after every later call that returns, the
    variance of the feature is still NaN. *)
Theorem nan_variance_persists (X Xc : array2) (w w' : world)
        (lm lv : farr) (d j : nat) :
  tracking (self w) = true ->
  check_array (copy (self w)) X = Ok Xc ->
  shape1 Xc = d -> (j < d)%nat ->
  prior_mean (self w) = Some (Some lm) -> fshape d lm ->
  prior_var (self w) = Some (Some lv) -> fshape d lv ->
  fget lv j = F64.nan ->
  length (prior_counts (self w) d) = d ->
  nth j (prior_counts (self w) d) 0 <> 0 ->
  length (nanmean (length (calls w)) Xc (epsilon_0 (self w)) (range (self w))) = d ->
  length (nanvar (S (length (calls w))) Xc (epsilon_0 (self w)) (range (self w))) = d ->
  partial_fit X w = (Ok tt, w') ->
  exists uv, var_ (self w') = Some (Some (FArray uv)) /\
             nth j uv F64.zero = F64.nan.
Proof.
  intros Ht HX Hd Hj Hpm Hlm Hpv Hlv Hnan Hlc Hne Hnm Hnv H.
  destruct (partial_fit_inv_tracking X w w' H Ht)
    as (Xc' & m & v & um & uv & uc & s1 & w2 & n0 & ns' &
        HX' & Hpm' & Hpv' & HI & _ & _ & Hs & _).
  rewrite HX in HX'. inversion HX'; subst Xc'. rewrite Hd in HI.
  rewrite Hpm in Hpm'. inversion Hpm'; subst m.
  rewrite Hpv in Hpv'. inversion Hpv'; subst v.
  rewrite (incremental_run _ _ _ _ _ _ _ d) in HI by (cbn [calls]; auto).
  inversion HI; subst. eexists. rewrite Hs. split; [reflexivity|].
  rewrite tabulate_nth by exact Hj. cbn [calls].
  rewrite Hnan. now apply var_updated_of_nan.
Qed.

(** ** A feature without any observation, on every path of line 180 *)

(** C7 (as amended).  When feature [j] has no observation, neither before
    nor in the batch, [partial_fit] raises, or, on an estimator that tracks
    neither mean nor variance, returns with [mean_ = None] (no mean is
    reported for any feature), or, on an estimator that tracks a statistic,
    returns with NaN as the mean of the feature.  It never reports a number
    for that mean. *)
Theorem no_observation_reports_no_number (X Xc : array2) (w w' : world)
        (r : res unit) (d j : nat) :
  check_array (copy (self w)) X = Ok Xc ->
  shape1 Xc = d -> (j < d)%nat ->
  (tracking (self w) = true ->
   (forall m, prior_mean (self w) = Some (Some m) -> fshape d m) /\
   length (nanmean (length (calls w)) Xc (epsilon_0 (self w)) (range (self w))) = d) ->
  length (prior_counts (self w) d) = d ->
  nth j (prior_counts (self w) d) 0 = 0 ->
  observed Xc j = 0 ->
  partial_fit X w = (r, w') ->
  (exists e, r = Raise e) \/
  (tracking (self w) = false /\ mean_ (self w') = Some None) \/
  (tracking (self w) = true /\
   exists um, mean_ (self w') = Some (Some (FArray um)) /\
              nth j um F64.zero = F64.nan).
Proof.
  intros HX Hd Hj Hshape Hlc Hold Hnew H.
  destruct r as [[]|e]; [|left; eauto]. right.
  destruct (tracking (self w)) eqn:Ht.
  - right. split; [reflexivity|].
    destruct (Hshape eq_refl) as [Hm Hnm].
    destruct (partial_fit_inv_tracking X w w' H Ht)
      as (Xc' & m & v & um & uv & uc & s1 & w2 & n0 & ns' &
          HX' & Hpm & _ & HI & _ & _ & Hs & _).
    rewrite HX in HX'. inversion HX'; subst Xc'. rewrite Hd in HI.
    destruct m as [lm|]; [|discriminate HI].
    apply (incremental_mean_inv _ _ _ _ _ _ _ _ d) in HI; auto.
    destruct HI as [-> _].
    eexists. rewrite Hs. split; [reflexivity|].
    rewrite tabulate_nth by exact Hj.
    rewrite Hold, Hnew. apply mean_updated_no_observation.
  - left. split; [reflexivity|].
    destruct (partial_fit_inv_untracked X w w' H Ht)
      as (Xc' & n0 & ns' & _ & _ & _ & Hs).
    rewrite Hs. reflexivity.
Qed.

End Scaler.

Arguments CallMean {range_t} X epsilon rng.
Arguments CallVar {range_t} X epsilon rng.
Arguments mkWorld {range_t} self calls.
Arguments self {range_t} w.
Arguments calls {range_t} w.
Arguments new_scaler {range_t} epsilon range copy with_mean with_std.
Arguments n_samples_seen_ {range_t} s.
Arguments mean_ {range_t} s.
Arguments var_ {range_t} s.
Arguments scale_ {range_t} s.
Arguments partial_fit {range_t} nanmean nanvar check_array X _.
Arguments _incremental_mean_and_var {range_t} nanmean nanvar X epsilon range
  last_mean last_variance last_sample_count _.
Arguments reach_start {range_t} nanmean nanvar check_array s0.

(** * The claims on concrete batches

    The statistic sources are the noise-free ones, the validator is
    [validate], the declared epsilon is 1 and the range is left out. *)

Notation "'fit'" := (partial_fit exact_nanmean exact_nanvar validate).
Notation "'merge'" := (_incremental_mean_and_var exact_nanmean exact_nanvar).
Notation "'start' wm ws" := (mkWorld (new_scaler (fl 1) tt true wm ws) [])
  (at level 10, wm at level 9, ws at level 9).
Notation "'half_epsilon'" := (F64.div (fl 1) (F64.of_int 2)).

(** The example of the specification: two batches, three samples. *)
Example spec_example :
  let w := snd (fit batch_second (snd (fit batch_first (start true (Some true))))) in
  n_samples_seen_ (self w) = Some (IScalar 3) /\
  mean_ (self w) = Some (Some (FArray [fl 3; fl 4])) /\
  calls w = [CallMean batch_first half_epsilon tt; CallVar batch_first half_epsilon tt;
             CallMean batch_second half_epsilon tt; CallVar batch_second half_epsilon tt].
Proof. vm_compute. repeat split. Qed.

(** C1 on the second batch of the example: both counts are positive for
    feature 0, and the merged variance is the one of the formula. *)
Lemma merge_variance_formula_witness :
  exists um uv uc w',
    merge batch_second half_epsilon tt
      (Some (FArray [fl 2; fl 3])) (Some (FArray [fl 1; fl 1])) [2; 2]
      (start true (Some true))
    = (Ok (um, Some (FArray uv), uc), w') /\
    nth 0 uv F64.nan = var_updated (fl 2) (fl 1) 2 (fl 5) (fl 0) 1.
Proof.
  destruct (merge_variance_formula unit exact_nanmean exact_nanvar
              batch_second half_epsilon tt (FArray [fl 2; fl 3])
              (FArray [fl 1; fl 1]) [2; 2] (start true (Some true)) 2
              eq_refl eq_refl eq_refl eq_refl eq_refl eq_refl)
    as (um & uv & uc & w' & Hrun & _ & Hj).
  exists um, uv, uc, w'. split; [exact Hrun|].
  destruct (Hj 0%nat (le_S _ _ (le_n 1))) as [Hpos _].
  exact (Hpos eq_refl eq_refl).
Defined.

(** C2 on the second batch of the example. *)
Lemma merge_mean_and_count_witness :
  exists um uv uc w',
    merge batch_second half_epsilon tt
      (Some (FArray [fl 2; fl 3])) (Some (FArray [fl 1; fl 1])) [2; 2]
      (start true (Some true))
    = (Ok (FArray um, uv, uc), w') /\
    nth 0 uc 0 = 3 /\
    nth 0 um F64.nan = fl 3.
Proof.
  destruct (merge_mean_and_count unit exact_nanmean exact_nanvar
              batch_second half_epsilon tt (FArray [fl 2; fl 3])
              (Some (FArray [fl 1; fl 1])) [2; 2] (start true (Some true)) 2
              eq_refl eq_refl eq_refl eq_refl (conj eq_refl eq_refl))
    as (um & uv & uc & w' & Hrun & _ & _ & Hj).
  exists um, uv, uc, w'. split; [exact Hrun|].
  destruct (Hj 0%nat (le_S _ _ (le_n 1))) as (Hc & Hplain & Hm).
  split.
  - apply Hplain. vm_compute. split; [discriminate|reflexivity].
  - rewrite Hm, Hc. vm_compute. reflexivity.
Defined.

(** C4 on the first batch of the example; the two halves add up to the
    declared epsilon. *)
Lemma budget_split_with_std_witness :
  exists Xc,
    validate true batch_first = Ok Xc /\
    calls (snd (fit batch_first (start true (Some true))))
    = [] ++ [CallMean Xc half_epsilon tt; CallVar Xc half_epsilon tt] /\
    F64.add half_epsilon half_epsilon = fl 1.
Proof.
  destruct (budget_split_with_std unit exact_nanmean exact_nanvar validate
              batch_first (start true (Some true))
              (snd (fit batch_first (start true (Some true))))
              eq_refl ltac:(vm_compute; reflexivity))
    as (Xc & HX & Hcalls).
  exists Xc. split; [exact HX|]. split; [exact Hcalls|].
  vm_compute. reflexivity.
Defined.

(** C9 on a batch with a constant feature, with and without [with_std]. *)
Lemma derived_scale_witness :
  (exists v,
     var_ (self (snd (fit batch_constant (start true (Some true)))))
     = Some (Some v) /\
     scale_ (self (snd (fit batch_constant (start true (Some true)))))
     = Some (Some (fmap scale_of v)) /\
     fmap scale_of v = FArray [fl 1; F64.div (fl 1) (fl 2)]) /\
  scale_ (self (snd (fit batch_constant (start true (Some false))))) = Some None.
Proof.
  split.
  - destruct (proj1 (derived_scale unit exact_nanmean exact_nanvar validate
                       batch_constant (start true (Some true))
                       (snd (fit batch_constant (start true (Some true))))
                       ltac:(vm_compute; reflexivity)) eq_refl)
      as (v & Hv & Hs).
    exists v. split; [exact Hv|]. split; [exact Hs|].
    assert (E : Some (Some v) = Some (Some (FArray [fl 0; F64.div (fl 1) (fl 4)]))).
    { rewrite <- Hv. vm_compute. reflexivity. }
    inversion E. vm_compute. reflexivity.
  - exact (proj2 (derived_scale unit exact_nanmean exact_nanvar validate
                    batch_constant (start true (Some false))
                    (snd (fit batch_constant (start true (Some false))))
                    ltac:(vm_compute; reflexivity)) eq_refl).
Defined.

(** C8 on the example: the scalar count 2 left by the first batch is
    broadcast and merged with the second batch into the scalar 3; a batch
    with a missing feature leaves a vector. *)
Lemma count_representation_witness :
  n_samples_seen_ (self (snd (fit batch_first (start true (Some true)))))
  = Some (IScalar 2) /\
  n_samples_seen_
    (self (snd (fit batch_second (snd (fit batch_first (start true (Some true)))))))
  = Some (IScalar 3) /\
  n_samples_seen_ (self (snd (fit batch_missing (start true (Some true)))))
  = Some (IArray [0; 2]).
Proof.
  split; [vm_compute; reflexivity|]. split.
  - exact (proj2 (count_representation unit exact_nanmean exact_nanvar validate
                    batch_second batch_second
                    (snd (fit batch_first (start true (Some true))))
                    (snd (fit batch_second
                            (snd (fit batch_first (start true (Some true))))))
                    2
                    ltac:(vm_compute; reflexivity) ltac:(vm_compute; reflexivity)
                    eq_refl ltac:(vm_compute; reflexivity)
                    ltac:(vm_compute; intros; reflexivity))).
  - exact (proj2 (count_representation unit exact_nanmean exact_nanvar validate
                    batch_missing batch_missing
                    (start true (Some true))
                    (snd (fit batch_missing (start true (Some true))))
                    2
                    ltac:(vm_compute; reflexivity) ltac:(vm_compute; reflexivity)
                    eq_refl ltac:(vm_compute; reflexivity)
                    ltac:(vm_compute; intros; reflexivity))).
Defined.

(** An estimator that tracks a statistic, on a batch whose first feature
    is never observed. *)
Lemma no_observation_mean_is_nan_witness :
  exists um,
    mean_ (self (snd (fit batch_missing (start true (Some true)))))
    = Some (Some (FArray um)) /\
    nth 0 um F64.zero = F64.nan.
Proof.
  destruct (no_observation_mean_is_nan unit exact_nanmean exact_nanvar validate
              batch_missing batch_missing (start true (Some true))
              (snd (fit batch_missing (start true (Some true))))
              (fst (fit batch_missing (start true (Some true)))) 2 0
              eq_refl eq_refl eq_refl (le_S _ _ (le_n 1))
              ltac:(vm_compute; intros m E; inversion E; exact I)
              eq_refl eq_refl eq_refl eq_refl
              ltac:(vm_compute; reflexivity))
    as [[e He]|Hnan].
  - vm_compute in He. discriminate He.
  - exact Hnan.
Defined.

(** C3 at the failing input: the mean is given 0.5, not the declared 1. *)
Lemma budget_without_std_witness :
  exists Xc l,
    validate true batch_first = Ok Xc /\
    calls (snd (fit batch_first (start true (Some false))))
    = [] ++ CallMean Xc half_epsilon tt :: l /\
    F64.eqb half_epsilon (fl 1) = false.
Proof.
  destruct (budget_without_std unit exact_nanmean exact_nanvar validate
              batch_first (start true (Some false))
              (snd (fit batch_first (start true (Some false))))
              eq_refl eq_refl ltac:(vm_compute; reflexivity))
    as (Xc & l & HX & Hcalls).
  exists Xc, l. split; [exact HX|]. split; [exact Hcalls|].
  vm_compute. reflexivity.
Defined.

(** ** A feature that the batch does not observe *)

Lemma var_updated_no_new_observation (meanOld varOld : float) (countOld : Z)
      (meanNew varNew : float) (m : positive) (e : Z) :
  F64.of_int countOld = S754_finite false m e ->
  I64.in_range countOld ->
  var_updated meanOld varOld countOld meanNew varNew 0 = F64.nan.
Proof.
  intros Hfin Hr.
  unfold var_updated, unnorm_var_updated, unnorm_var_chan, count_updated, I64.add.
  rewrite Z.add_0_r, (wrap_small _ Hr).
  destruct (Z.eqb_spec countOld 0) as [->|_]; [discriminate Hfin|].
  rewrite Hfin. change (F64.of_int 0) with (S754_zero false).
  generalize (F64.mul meanOld (S754_finite false m e)).
  generalize (F64.add (F64.mul varOld (S754_finite false m e))
                      (F64.mul varNew (S754_zero false))).
  intros a sumOld.
  assert (Hnan : forall x, F64.div (F64.add a x) (S754_finite false m e) = F64.nan
                           \/ x <> F64.nan).
  { intros x. destruct x; try (right; discriminate). left.
    destruct a; reflexivity. }
  destruct (Hnan (F64.mul
       (F64.div (F64.div (S754_finite false m e) (S754_zero false))
          (S754_finite false m e))
       (F64.square
          (F64.sub
             (F64.div sumOld (F64.div (S754_finite false m e) (S754_zero false)))
             (F64.mul meanNew (S754_zero false)))))) as [H|H]; [exact H|].
  exfalso. apply H. clear H Hnan.
  destruct sumOld as [s|s| |s m' e']; destruct meanNew as [t|t| |t m'' e''];
    try destruct s; try destruct t; reflexivity.
Qed.

(** C5 (what the code does).  When a variance is tracked and the batch has
    no observation of feature [j] while the prior count is positive, the
    merge returns and the merged variance of the feature is NaN. *)
Theorem merge_without_new_observation (range_t : Type)
        (nanmean nanvar : nat -> array2 -> float -> range_t -> list float)
        (X : array2) (eps : float) (rng : range_t)
        (lm lv : farr) (lc : list Z) (w : world range_t) (d j : nat)
        (m : positive) (e : Z) :
  shape1 X = d -> fshape d lm -> fshape d lv -> length lc = d ->
  length (nanmean (length (calls w)) X eps rng) = d ->
  length (nanvar (S (length (calls w))) X eps rng) = d ->
  (j < d)%nat ->
  observed X j = 0 ->
  I64.in_range (nth j lc 0) ->
  F64.of_int (nth j lc 0) = S754_finite false m e ->
  exists um uv uc w',
    _incremental_mean_and_var nanmean nanvar X eps rng (Some lm) (Some lv) lc w
    = (Ok (um, Some (FArray uv), uc), w') /\
    nth j uv F64.zero = F64.nan.
Proof.
  intros HX Hlm Hlv Hlc Hnm Hnv Hj Hobs Hr Hfin.
  rewrite (incremental_run range_t nanmean nanvar X eps rng lm (Some lv) lc w d)
    by auto.
  do 4 eexists. split; [reflexivity|].
  rewrite tabulate_nth by exact Hj. rewrite Hobs.
  eapply var_updated_no_new_observation; eauto.
Qed.

(** C5 at the failing input: a prior aggregate with mean 4, variance 1 and
    count 2, merged with a batch that misses the feature.  The prior
    unnormalized variance is 2, so the claim asks for the variance
    2 / 2 = 1. *)
Lemma merge_without_new_observation_witness :
  exists um uv uc w',
    merge batch_unseen half_epsilon tt
      (Some (FArray [fl 4])) (Some (FArray [fl 1])) [2] (start true (Some true))
    = (Ok (um, Some (FArray uv), uc), w') /\
    nth 0 uv F64.zero = F64.nan /\
    uc = [2] /\
    F64.div (F64.mul (fl 1) (F64.of_int 2)) (F64.of_int 2) = fl 1.
Proof.
  destruct (merge_without_new_observation unit exact_nanmean exact_nanvar
              batch_unseen half_epsilon tt (FArray [fl 4]) (FArray [fl 1]) [2]
              (start true (Some true)) 1 0 4503599627370496 (-51)
              eq_refl eq_refl eq_refl eq_refl eq_refl eq_refl (le_n 1)
              eq_refl ltac:(vm_compute; split; [discriminate|reflexivity])
              ltac:(vm_compute; reflexivity))
    as (um & uv & uc & w' & Hrun & Hnan).
  exists um, uv, uc, w'. split; [exact Hrun|]. split; [exact Hnan|].
  split; [|vm_compute; reflexivity].
  assert (E : fst (merge batch_unseen half_epsilon tt
                     (Some (FArray [fl 4])) (Some (FArray [fl 1])) [2]
                     (start true (Some true)))
              = Ok (um, Some (FArray uv), uc)) by (now rewrite Hrun).
  vm_compute in E. inversion E. reflexivity.
Defined.

(** C6 (what the code does).  The first feature is missing throughout
    [batch_missing] and observed throughout [batch_observed], where its
    mean is 6 and its variance is 1.  In both orders the count of the
    feature ends at 2, but its mean ends as NaN; its variance is 1 when the
    missing batch comes first and NaN when it comes second. *)
Theorem missing_feature_across_batches :
  let missing_first :=
    snd (fit batch_observed (snd (fit batch_missing (start true (Some true))))) in
  let missing_second :=
    snd (fit batch_missing (snd (fit batch_observed (start true (Some true))))) in
  column_mean (column batch_observed 0) = fl 6 /\
  column_var (column batch_observed 0) = fl 1 /\
  n_samples_seen_ (self missing_first) = Some (IArray [2; 4]) /\
  mean_ (self missing_first) = Some (Some (FArray [F64.nan; fl 4])) /\
  var_ (self missing_first) = Some (Some (FArray [fl 1; fl 5])) /\
  n_samples_seen_ (self missing_second) = Some (IArray [2; 4]) /\
  mean_ (self missing_second) = Some (Some (FArray [F64.nan; fl 4])) /\
  var_ (self missing_second) = Some (Some (FArray [F64.nan; fl 5])).
Proof. vm_compute. repeat split. Qed.



(** * Further properties on concrete batches *)

Notation "'fitted_on' b" := (snd (fit b (start true (Some true))))
  (at level 10, b at level 9).

(** X2 on a fresh estimator that tracks nothing. *)
Lemma untracked_fit_spends_no_budget_witness :
  calls (snd (fit batch_first (start false (Some false)))) = [] /\
  mean_ (self (snd (fit batch_first (start false (Some false))))) = Some None.
Proof.
  destruct (untracked_fit_spends_no_budget unit exact_nanmean exact_nanvar
              validate batch_first (start false (Some false)) eq_refl)
    as (Hcalls & Hok).
  split; [exact Hcalls|].
  exact (proj1 (Hok ltac:(vm_compute; reflexivity))).
Defined.

(** X3 on an estimator fitted on two features and given three. *)
Lemma constructed_estimator_exceptions_witness :
  fst (fit batch_wide (fitted_on batch_missing)) = Raise ValueError /\
  (validate true batch_wide = Raise ValueError \/
   ValueError = ValueError \/ ValueError = IndexError).
Proof.
  split; [vm_compute; reflexivity|].
  apply (constructed_estimator_exceptions unit exact_nanmean exact_nanvar
           validate (fl 1) tt true true (Some true)
           (self (fitted_on batch_missing)) batch_wide
           (calls (fitted_on batch_missing)) ValueError
           (snd (fit batch_wide (fitted_on batch_missing)))).
  - apply (reach_step unit exact_nanmean exact_nanvar validate _
             (new_scaler (fl 1) tt true true (Some true)) batch_missing []
             (Ok tt) (fitted_on batch_missing)).
    + apply reach_start.
    + vm_compute. reflexivity.
  - vm_compute. reflexivity.
Defined.

(** X4: two features and a scalar count, then three features. *)
Lemma feature_mismatch_with_scalar_count_witness :
  fst (fit batch_wide (fitted_on batch_first)) = Raise ValueError /\
  calls (snd (fit batch_wide (fitted_on batch_first)))
  = calls (fitted_on batch_first) /\
  n_samples_seen_ (self (fitted_on batch_first)) = Some (IScalar 2) /\
  n_samples_seen_ (self (snd (fit batch_wide (fitted_on batch_first))))
  = Some (IArray [2; 2; 2]).
Proof.
  destruct (feature_mismatch_with_scalar_count unit exact_nanmean exact_nanvar
              validate batch_wide batch_wide (fitted_on batch_first)
              [fl 2; fl 3] (Some (FArray [fl 1; fl 1]))
              (Some (FArray [fl 1; fl 1])) 2 3
              eq_refl eq_refl eq_refl
              ltac:(vm_compute; reflexivity) ltac:(vm_compute; reflexivity)
              ltac:(vm_compute; reflexivity) ltac:(vm_compute; reflexivity)
              ltac:(discriminate) ltac:(discriminate) ltac:(discriminate))
    as (Hr & Hc & Hs).
  split; [exact Hr|]. split; [exact Hc|]. split; [vm_compute; reflexivity|].
  rewrite Hs. reflexivity.
Defined.

(** X5: two features and a vector of counts, then three features. *)
Lemma feature_mismatch_with_vector_count_witness :
  fst (fit batch_wide (fitted_on batch_missing)) = Raise ValueError /\
  calls (snd (fit batch_wide (fitted_on batch_missing)))
  = calls (fitted_on batch_missing) ++ [CallMean batch_wide half_epsilon tt] /\
  self (snd (fit batch_wide (fitted_on batch_missing)))
  = self (fitted_on batch_missing).
Proof.
  exact (feature_mismatch_with_vector_count unit exact_nanmean exact_nanvar
           validate batch_wide batch_wide (fitted_on batch_missing)
           [F64.nan; fl 2] (Some (FArray [F64.nan; fl 1]))
           (Some (FArray [F64.nan; fl 1])) [0; 2] 3
           eq_refl eq_refl eq_refl
           ltac:(vm_compute; reflexivity) ltac:(vm_compute; reflexivity)
           ltac:(vm_compute; reflexivity) ltac:(vm_compute; reflexivity)
           eq_refl eq_refl
           ltac:(discriminate) ltac:(discriminate) ltac:(discriminate)).
Defined.

(** X6 on the example: the fresh estimator takes the first batch, and can
    take the second one. *)
Lemma well_shaped_batch_is_accepted_witness :
  exists w',
    fit batch_first (start true (Some true)) = (Ok tt, w') /\
    accepts unit 2 (self w').
Proof.
  apply (well_shaped_batch_is_accepted unit exact_nanmean exact_nanvar validate
           batch_first batch_first (start true (Some true)) 2
           eq_refl eq_refl (le_S _ _ (le_n 1))).
  - apply new_scaler_accepts.
  - reflexivity.
  - reflexivity.
Defined.

(** X7: fitted on one feature, then a batch with two. *)
Lemma one_feature_estimator_takes_wider_batch_witness :
  exists w' um,
    fit batch_first (fitted_on batch_single) = (Ok tt, w') /\
    mean_ (self w') = Some (Some (FArray um)) /\
    length um = 2%nat.
Proof.
  apply (one_feature_estimator_takes_wider_batch unit exact_nanmean exact_nanvar
           validate batch_first batch_first (fitted_on batch_single)
           (fl 3) (Some (fl 1)) (Some (FArray [fl 1])) 2 2
           eq_refl eq_refl eq_refl (le_S _ _ (le_n 1))
           ltac:(vm_compute; reflexivity) ltac:(vm_compute; reflexivity)
           ltac:(vm_compute; reflexivity) ltac:(intros _; discriminate)
           ltac:(vm_compute; reflexivity) eq_refl eq_refl).
Defined.

(** X8 on a batch with a constant feature: the scale of that feature is 1. *)
Lemma scale_entries_witness :
  exists v sc,
    var_ (self (fitted_on batch_constant)) = Some (Some v) /\
    scale_ (self (fitted_on batch_constant)) = Some (Some sc) /\
    nth 0 (entries v) F64.zero = fl 0 /\
    F64.eqb (nth 0 (entries sc) F64.zero) F64.zero = false.
Proof.
  destruct (scale_entries unit exact_nanmean exact_nanvar validate
              batch_constant (start true (Some true)) (fitted_on batch_constant)
              ltac:(vm_compute; reflexivity) eq_refl)
    as (v & sc & Hv & Hsc & Hlen & Hj).
  exists v, sc. split; [exact Hv|]. split; [exact Hsc|].
  assert (E : Some (Some v) = Some (Some (FArray [fl 0; F64.div (fl 1) (fl 4)]))).
  { rewrite <- Hv. vm_compute. reflexivity. }
  inversion E; subst v. split; [reflexivity|].
  exact (proj1 (Hj 0%nat (le_S _ _ (le_n 1)))).
Defined.

(** X9 on the example: 2 rows, then 1 more. *)
Lemma complete_batch_keeps_scalar_count_witness :
  n_samples_seen_ (self (snd (fit batch_second (fitted_on batch_first))))
  = Some (IScalar (I64.add 2 1)).
Proof.
  apply (complete_batch_keeps_scalar_count unit exact_nanmean exact_nanvar
           validate batch_second batch_second (fitted_on batch_first)
           (snd (fit batch_second (fitted_on batch_first))) 2).
  - vm_compute. reflexivity.
  - vm_compute. reflexivity.
  - unfold complete, batch_second. cbn.
    repeat constructor.
  - vm_compute. reflexivity.
  - vm_compute. reflexivity.
Defined.

(** X10: the first feature has a NaN mean after [batch_missing], and keeps
    it after the fully observed batch. *)
Lemma nan_mean_persists_witness :
  exists um,
    mean_ (self (snd (fit batch_observed (fitted_on batch_missing))))
    = Some (Some (FArray um)) /\
    nth 0 um F64.zero = F64.nan.
Proof.
  apply (nan_mean_persists unit exact_nanmean exact_nanvar validate
           batch_observed batch_observed (fitted_on batch_missing)
           (snd (fit batch_observed (fitted_on batch_missing)))
           (FArray [F64.nan; fl 2]) 2 0
           eq_refl eq_refl eq_refl (le_S _ _ (le_n 1))
           ltac:(vm_compute; reflexivity) eq_refl eq_refl eq_refl eq_refl
           ltac:(vm_compute; reflexivity)).
Defined.

(** X11: a merge without a variance on the second batch of the example. *)
Lemma merge_variance_iff_given_witness :
  calls (snd (merge batch_second (fl 1) tt (Some (FArray [fl 2; fl 3])) None
                [2; 2] (start true None)))
  = [] ++ [CallMean batch_second (fl 1) tt].
Proof.
  exact (proj1 (proj2
    (merge_variance_iff_given unit exact_nanmean exact_nanvar
       batch_second (fl 1) tt (Some (FArray [fl 2; fl 3])) None [2; 2]
       (start true None)
       (snd (merge batch_second (fl 1) tt (Some (FArray [fl 2; fl 3])) None
               [2; 2] (start true None)))
       (FArray [fl 3; fl 4]) None [3; 3]
       ltac:(vm_compute; reflexivity)))).
Defined.

(** X12: the variance of the first feature is NaN once [batch_missing]
    follows [batch_observed], and stays NaN after one more observed batch. *)
Lemma nan_variance_persists_witness :
  exists uv,
    var_ (self (snd (fit batch_observed
                       (snd (fit batch_missing (fitted_on batch_observed))))))
    = Some (Some (FArray uv)) /\
    nth 0 uv F64.zero = F64.nan.
Proof.
  apply (nan_variance_persists unit exact_nanmean exact_nanvar validate
           batch_observed batch_observed
           (snd (fit batch_missing (fitted_on batch_observed)))
           (snd (fit batch_observed
                   (snd (fit batch_missing (fitted_on batch_observed)))))
           (FArray [F64.nan; fl 4]) (FArray [F64.nan; fl 5]) 2 0
           eq_refl eq_refl eq_refl (le_S _ _ (le_n 1))
           ltac:(vm_compute; reflexivity) eq_refl
           ltac:(vm_compute; reflexivity) eq_refl eq_refl eq_refl
           ltac:(vm_compute; discriminate) eq_refl eq_refl
           ltac:(vm_compute; reflexivity)).
Defined.

(** * A feature without any observation on concrete batches *)

(** C7 as stated fails on an estimator that tracks neither mean nor
    variance: the first feature of [batch_missing] is never observed, the
    call returns, the count of the feature is zero, and [mean_] is [None],
    neither NaN nor an exception. *)
Lemma no_observation_untracked_counterexample :
  let out := fit batch_missing (start false (Some false)) in
  fst out = Ok tt /\
  n_samples_seen_ (self (snd out)) = Some (IArray [0; 2]) /\
  mean_ (self (snd out)) = Some None /\
  ~ (exists um, mean_ (self (snd out)) = Some (Some (FArray um)) /\
                nth 0 um F64.zero = F64.nan).
Proof.
  vm_compute. repeat split. intros (um & H & _). discriminate H.
Qed.

(** C7 as amended, on [batch_missing] and a fresh estimator: with both
    statistics tracked the mean of the first feature is NaN, with none
    tracked [mean_] is [None]. *)
Lemma no_observation_reports_no_number_witness :
  (exists um,
     mean_ (self (snd (fit batch_missing (start true (Some true)))))
     = Some (Some (FArray um)) /\
     nth 0 um F64.zero = F64.nan) /\
  mean_ (self (snd (fit batch_missing (start false (Some false))))) = Some None.
Proof.
  split.
  - destruct (no_observation_reports_no_number unit exact_nanmean exact_nanvar
                validate batch_missing batch_missing (start true (Some true))
                (snd (fit batch_missing (start true (Some true))))
                (fst (fit batch_missing (start true (Some true)))) 2 0
                eq_refl eq_refl (le_S _ _ (le_n 1))
                ltac:(intros _; split;
                      [vm_compute; intros m E; inversion E; exact I|reflexivity])
                eq_refl eq_refl eq_refl
                ltac:(vm_compute; reflexivity))
      as [[e He]|[[Ht _]|[_ Hnan]]].
    + vm_compute in He. discriminate He.
    + vm_compute in Ht. discriminate Ht.
    + exact Hnan.
  - destruct (no_observation_reports_no_number unit exact_nanmean exact_nanvar
                validate batch_missing batch_missing (start false (Some false))
                (snd (fit batch_missing (start false (Some false))))
                (fst (fit batch_missing (start false (Some false)))) 2 0
                eq_refl eq_refl (le_S _ _ (le_n 1))
                ltac:(vm_compute; intros Hf; discriminate Hf)
                eq_refl eq_refl eq_refl
                ltac:(vm_compute; reflexivity))
      as [[e He]|[[_ Hnone]|[Ht _]]].
    + vm_compute in He. discriminate He.
    + exact Hnone.
    + vm_compute in Ht. discriminate Ht.
Defined.
